(** * Family file-sharing app: the three HTTP routes and the upload widget

    A shallow embedding of
      - [POST /api/upload]            (upload route),
      - [GET /api/files]              (list route, with [getFileType]),
      - [DELETE /api/upload/[id]]     (delete route),
      - the two [FileUpload] components ([fetch]-based and [XMLHttpRequest]-based),
    over an explicit model of the [public/uploads] directory.

    Handlers are state-passing functions: they take the outcome of the
    fallible system calls, the directory, and the request, and give back the
    response together with the directory afterwards. *)

From Stdlib Require Import ZArith List String Ascii Lia Sorting Permutation.
From stdpp Require Import base strings gmap list sorting.

Local Open Scope string_scope.
Local Open Scope Z_scope.

(* ===================================================================== *)
(** ** JavaScript built-ins used by the routes *)
(* ===================================================================== *)

Module JS.

(** [s.split(sep)] for a one-character separator. The result is never
    empty: [''.split('.')] is [['']]. *)
Fixpoint split (sep : ascii) (s : string) : list string :=
  match s with
  | EmptyString => [EmptyString]
  | String c s' =>
      if Ascii.eqb c sep then EmptyString :: split sep s'
      else match split sep s' with
           | [] => [String c EmptyString]
           | p :: ps => String c p :: ps
           end
  end.

(** [a.pop()]: the array after the call, and the value returned
    ([None] is [undefined], returned on an empty array). *)
Fixpoint pop {A : Type} (l : list A) : list A * option A :=
  match l with
  | [] => ([], None)
  | x :: l' =>
      match l' with
      | [] => ([], Some x)
      | _ :: _ => let '(r, o) := pop l' in (x :: r, o)
      end
  end.

(** [a.join(sep)]. *)
Fixpoint join (sep : string) (l : list string) : string :=
  match l with
  | [] => EmptyString
  | x :: l' =>
      match l' with
      | [] => x
      | _ :: _ => x +:+ sep +:+ join sep l'
      end
  end.

(** [s.startsWith(p)]. *)
Fixpoint startsWith (s p : string) {struct p} : bool :=
  match p with
  | EmptyString => true
  | String b p' =>
      match s with
      | EmptyString => false
      | String a s' => Ascii.eqb a b && startsWith s' p'
      end
  end.

(** [s.toLowerCase()] on the letters A-Z. The routes only compare the
    result with lower-case ASCII literals that contain no [k] and no [i]
    followed by a combining dot, so the non-ASCII case mappings of
    JavaScript cannot change any comparison made here. *)
Definition lower_char (c : ascii) : ascii :=
  let n := nat_of_ascii c in
  if (65 <=? n)%nat && (n <=? 90)%nat then ascii_of_nat (n + 32) else c.

Fixpoint toLowerCase (s : string) : string :=
  match s with
  | EmptyString => EmptyString
  | String c s' => String (lower_char c) (toLowerCase s')
  end.

(** [a.includes(x)] on an array of strings. *)
Definition includes (l : list string) (x : string) : bool :=
  existsb (String.eqb x) l.

(** [a.find(p)]. *)
Definition find {A : Type} (p : A → bool) (l : list A) : option A :=
  List.find p l.

(** Truthiness of a string value: only [''] is falsy. *)
Definition truthy (s : string) : bool := negb (String.eqb s EmptyString).

(** [x || ''] where [x] is a string or [undefined]. *)
Definition or_empty (x : option string) : string :=
  match x with
  | Some s => if truthy s then s else EmptyString
  | None => EmptyString
  end.

(** [`${x}`] where [x] is a string or [undefined]. *)
Definition interpolate (x : option string) : string :=
  match x with
  | Some s => s
  | None => "undefined"
  end.

(** [a.sort(cmp)]: a stable sort; [x] stays in front of [y] when
    [cmp x y <= 0]. The result of a stable sort is determined by the
    comparator, so insertion sort stands for the engine's algorithm. *)
Fixpoint sort_insert {A : Type} (cmp : A → A → Z) (x : A) (l : list A) : list A :=
  match l with
  | [] => [x]
  | y :: l' => if cmp x y <=? 0 then x :: y :: l' else y :: sort_insert cmp x l'
  end.

Fixpoint sort {A : Type} (cmp : A → A → Z) (l : list A) : list A :=
  match l with
  | [] => []
  | x :: l' => sort_insert cmp x (sort cmp l')
  end.

(** What the comparator says of two elements: [x] may stay in front of [y]. *)
Definition stays_before {A : Type} (cmp : A → A → Z) (x y : A) : Prop :=
  cmp x y <= 0.

End JS.

(* ===================================================================== *)
(** ** HTTP responses *)
(* ===================================================================== *)

Inductive Body (A : Type) : Type :=
| ErrorBody (error : string)
| Payload (a : A).
Arguments ErrorBody {A} error.
Arguments Payload {A} a.

Record Response (A : Type) : Type := mkResponse { status : Z; body : Body A }.
Arguments mkResponse {A} status body.
Arguments status {A} r.
Arguments body {A} r.

(** [NextResponse.json(x)] answers 200; [NextResponse.json(x, { status })]
    answers [status]. *)
Definition json_ok {A : Type} (a : A) : Response A := mkResponse 200 (Payload a).
Definition json_error {A : Type} (msg : string) (st : Z) : Response A :=
  mkResponse st (ErrorBody msg).

(* ===================================================================== *)
(** ** The storage directory [public/uploads] *)
(* ===================================================================== *)

Module Storage.

Record Entry : Type := mkEntry {
  e_name : string;          (* file name inside the directory *)
  e_data : list Byte.byte;  (* content *)
  e_birthtime : Z           (* creation time, milliseconds *)
}.

(** [None]: the directory does not exist. The list is in the order in
    which [readdir] reports the entries. *)
Definition Dir : Type := option (list Entry).

(** How a [writeFile] call under a given name ends. The call opens the
    file, which creates it or empties it, and then writes: it can be
    refused before the file is opened (permissions, a path that does not
    resolve), or fail after [written] bytes (full disk, size limit), in
    which case the file stays behind with what was written. *)
Inductive WriteOutcome : Type :=
| WriteOk
| WriteRefused
| WriteCut (written : nat).

(** System calls that the operating system may refuse (permissions, full
    disk, an entry that is a sub-directory or a dangling link, ...). A
    [true] makes the call reject. *)
Record Faults : Type := mkFaults {
  f_readdir : bool;
  f_mkdir : bool;
  f_writeFile : string → WriteOutcome;
  f_stat : string → bool;
  f_unlink : string → bool
}.

Record Stats : Type := mkStats { st_size : Z; st_birthtime : Z }.

Definition readdir (fl : Faults) (d : Dir) : option (list string) :=
  match d with
  | None => None
  | Some es => if f_readdir fl then None else Some (map e_name es)
  end.

Definition lookup_entry (name : string) (es : list Entry) : option Entry :=
  List.find (fun e => String.eqb (e_name e) name) es.

Definition stat (fl : Faults) (d : Dir) (name : string) : option Stats :=
  match d with
  | None => None
  | Some es =>
      if f_stat fl name then None
      else match lookup_entry name es with
           | Some e => Some (mkStats (Z.of_nat (length (e_data e))) (e_birthtime e))
           | None => None
           end
  end.

Fixpoint remove_entry (name : string) (es : list Entry) : list Entry :=
  match es with
  | [] => []
  | e :: es' => if String.eqb (e_name e) name then es' else e :: remove_entry name es'
  end.

(** [unlink]: [None] when the call rejects, else the directory without
    the entry. *)
Definition unlink (fl : Faults) (d : Dir) (name : string) : option Dir :=
  match d with
  | None => None
  | Some es =>
      if f_unlink fl name then None
      else match lookup_entry name es with
           | Some _ => Some (Some (remove_entry name es))
           | None => None
           end
  end.

(** [mkdir(dir, { recursive: true })]: creates the directory when it is
    missing, does nothing when it exists. *)
Definition mkdir (fl : Faults) (d : Dir) : option Dir :=
  if f_mkdir fl then None
  else match d with
       | None => Some (Some [])
       | Some es => Some (Some es)
       end.

Fixpoint put_entry (e : Entry) (es : list Entry) : list Entry :=
  match es with
  | [] => [e]
  | e' :: es' =>
      if String.eqb (e_name e') (e_name e)
      then mkEntry (e_name e) (e_data e) (e_birthtime e') :: es'
      else e' :: put_entry e es'
  end.

(** [name] names a file directly inside the directory: it is not empty,
    not [.] or [..], and has no path separator and no NUL. With a
    separator, [join(uploadDir, name)] is a path below a sub-directory,
    which this flat directory of files does not have. (The names the
    Upload Endpoint builds are a UUID, a dot and a text without dots, so
    that no segment of them is [.] or [..].) *)
Definition child_name (name : string) : bool :=
  negb (existsb (fun c => Ascii.eqb c "/" || Ascii.eqb c "000")
                (list_ascii_of_string name))
  && negb (String.eqb name EmptyString)
  && negb (String.eqb name ".")
  && negb (String.eqb name "..").

(** [writeFile(join(uploadDir, name), data)], the file system stamping a
    new file with the time [created]: the directory afterwards, and
    whether the call resolved. A write that is carried out replaces the
    content of an existing file (which keeps its creation time) or creates
    the file; a write that fails after the file was opened leaves the file
    with the bytes written so far; a name that is not a [child_name], a
    missing directory and a refusal leave everything as it was. *)
Definition writeFile (fl : Faults) (d : Dir) (name : string)
    (data : list Byte.byte) (created : Z) : Dir * bool :=
  match d with
  | None => (None, false)
  | Some es =>
      if negb (child_name name) then (Some es, false)
      else match f_writeFile fl name with
           | WriteOk => (Some (put_entry (mkEntry name data created) es), true)
           | WriteRefused => (Some es, false)
           | WriteCut written =>
               (Some (put_entry (mkEntry name (take written data) created) es),
                false)
           end
  end.

(** The operating system refuses nothing. *)
Definition no_faults : Faults :=
  mkFaults false false (fun _ => WriteOk) (fun _ => false) (fun _ => false).

End Storage.

(* ===================================================================== *)
(** ** GET /api/files *)
(* ===================================================================== *)

Module Files.
Import Storage.

Record FileDescriptor : Type := mkFileDescriptor {
  id : string;
  fileName : string;
  originalName : string;
  size : Z;
  uploadedAt : Z;
  url : string;
  type : string
}.

Definition getFileType (extension : string) : string :=
  let ext := JS.toLowerCase extension in
  if JS.includes ["jpg"; "jpeg"; "png"; "gif"; "webp"] ext then
    "image/" +:+ (if String.eqb ext "jpg" then "jpeg" else ext)
  else if String.eqb ext "pdf" then "application/pdf"
  else if JS.includes ["txt"; "md"] ext then "text/plain"
  else if String.eqb ext "doc" then "application/msword"
  else if String.eqb ext "docx" then
    "application/vnd.openxmlformats-officedocument.wordprocessingml.document"
  else "application/octet-stream".

(** Lines 20-22 of the handler: [parts = fileName.split('.')],
    [extension = parts.pop()], [id = parts.join('.')]. *)
Definition decompose (fileName : string) : string * option string :=
  let parts := JS.split "." fileName in
  let '(parts', extension) := JS.pop parts in
  (JS.join "." parts', extension).

(** The callback mapped over the directory listing; [None] is the [null]
    returned when [stat] rejects. *)
Definition describe (fl : Faults) (d : Dir) (fileName : string) : option FileDescriptor :=
  match stat fl d fileName with
  | None => None
  | Some stats =>
      let '(id, extension) := decompose fileName in
      Some {| id := id;
              fileName := fileName;
              originalName := fileName;
              size := st_size stats;
              uploadedAt := st_birthtime stats;
              url := "/uploads/" +:+ fileName;
              type := getFileType (JS.or_empty extension) |}
  end.

(** The comparator given to [sort]. *)
Definition by_newest (a b : FileDescriptor) : Z := uploadedAt b - uploadedAt a.

(** [fileList.filter(file => file !== null)]. *)
Definition non_null {A : Type} (l : list (option A)) : list A := omap (fun x => x) l.

Definition GET (fl : Faults) (d : Dir) : Response (list FileDescriptor) :=
  match readdir fl d with
  | Some files =>
      let fileList := map (describe fl d) files in
      let validFiles := JS.sort by_newest (non_null fileList) in
      json_ok validFiles
  | None => json_ok []
  end.

End Files.

(* ===================================================================== *)
(** ** The browser's [File] object *)
(* ===================================================================== *)

Module File.

(** [size] is the attribute read by [file.size]; [content] is what
    [file.arrayBuffer()] resolves to. *)
Record t : Type := mk {
  name : string;
  size : Z;
  type : string;
  content : list Byte.byte
}.

End File.

(* ===================================================================== *)
(** ** POST /api/upload *)
(* ===================================================================== *)

Module Upload.
Import Storage.

(** What [data.get('file')] can hold besides [null]: a text field or a
    file. The handler casts it to [File] without checking. *)
Inductive FormValue : Type :=
| FormString (s : string)
| FormFile (file : File.t).

(** [request.formData()] rejects on a body that is not a form. *)
Inductive Request : Type :=
| NotAForm
| FormData (file : option FormValue).

(** What the handler draws from outside: the system calls' outcomes, the
    value of [uuidv4()] (a random version-4 UUID, which the handler does
    not compare with the names in the directory), and two readings of the
    clock (milliseconds): [created] is the time with which the file system
    stamps a file created by the write, [now] is the [new Date()] of the
    answer, read afterwards. *)
Record Env : Type := mkEnv {
  faults : Faults;
  uuid : string;
  now : Z;
  created : Z
}.

Record UploadInfo : Type := mkUploadInfo {
  id : string;
  filename : string;
  originalName : string;
  url : string;
  size : Z;
  type : string;
  uploadedAt : Z
}.

Definition maxSize : Z := 10 * 1024 * 1024.

Definition allowedTypes : list string :=
  [ "image/jpeg"; "image/png"; "image/gif"; "image/webp";
    "application/pdf";
    "text/plain"; "text/markdown";
    "application/msword";
    "application/vnd.openxmlformats-officedocument.wordprocessingml.document" ].

(** [`${fileId}.${fileExtension}`] with
    [fileExtension = file.name.split('.').pop()]. *)
Definition storedName (fileId : string) (name : string) : string :=
  let fileExtension := snd (JS.pop (JS.split "." name)) in
  fileId +:+ "." +:+ JS.interpolate fileExtension.

Definition POST (env : Env) (d : Dir) (req : Request) : Response UploadInfo * Dir :=
  match req with
  | NotAForm => (json_error "Upload failed." 500, d)
  | FormData None => (json_error "No file received." 400, d)
  | FormData (Some (FormString s)) =>
      (* a string has no [size] and no [type]: [undefined > n] is false
         and [includes(undefined)] is false *)
      if negb (JS.truthy s) then (json_error "No file received." 400, d)
      else (json_error "File type not allowed." 400, d)
  | FormData (Some (FormFile file)) =>
      if File.size file >? maxSize then
        (json_error "File too large. Max size is 10MB." 400, d)
      else if negb (JS.includes allowedTypes (File.type file)) then
        (json_error "File type not allowed." 400, d)
      else
        let buffer := File.content file in
        let fileId := uuid env in
        let fileName := storedName fileId (File.name file) in
        (* try { await mkdir(...) } catch { } *)
        let d1 := match mkdir (faults env) d with
                  | Some d' => d'
                  | None => d
                  end in
        let '(d2, written) :=
          writeFile (faults env) d1 fileName buffer (created env) in
        if written then
          (json_ok {| id := fileId;
                      filename := fileName;
                      originalName := File.name file;
                      url := "/uploads/" +:+ fileName;
                      size := File.size file;
                      type := File.type file;
                      uploadedAt := now env |}, d2)
        else
          (* the outer [catch]: nothing is cleaned up *)
          (json_error "Upload failed." 500, d2)
  end.

End Upload.

(* ===================================================================== *)
(** ** DELETE /api/upload/[id] *)
(* ===================================================================== *)

Module Delete.
Import Storage.

Record Deleted : Type := mkDeleted { success : bool; message : string }.

(** How the statements in front of the scan end (lines 11-15, inside the
    outer [try] and outside the inner one): the promise [context.params]
    rejects, or [process.cwd()] throws in building the path of the
    directory, or both succeed and the scan is reached with the [id]
    segment of the path. *)
Inductive Arrival : Type :=
| ParamsRejected
| CwdThrew (id : string)
| Arrived (id : string).

(** What the scan receives: [None] when a statement in front of it threw. *)
Definition before_scan (a : Arrival) : option string :=
  match a with
  | ParamsRejected => None
  | CwdThrew _ => None
  | Arrived id => Some id
  end.

(** The handler from the scan on. [params] is the outcome of the
    statements in front of the scan, as [before_scan] gives it: [None] when
    one of them threw (the outer [catch] answers), else the [id] segment of
    the path. *)
Definition DELETE (fl : Faults) (d : Dir) (params : option string)
    : Response Deleted * Dir :=
  match params with
  | None => (json_error "Delete failed." 500, d)
  | Some fileId =>
      match readdir fl d with
      | None => (json_error "File not found or already deleted" 404, d)
      | Some files =>
          match JS.find (fun file => JS.startsWith file fileId) files with
          | Some fileToDelete =>
              if JS.truthy fileToDelete then
                match unlink fl d fileToDelete with
                | Some d' =>
                    (json_ok {| success := true;
                                message := "File deleted successfully" |}, d')
                | None => (json_error "File not found or already deleted" 404, d)
                end
              else (json_error "File not found" 404, d)
          | None => (json_error "File not found" 404, d)
          end
      end
  end.

(** The whole handler. *)
Definition route (fl : Faults) (d : Dir) (a : Arrival) : Response Deleted * Dir :=
  DELETE fl d (before_scan a).

End Delete.

(* ===================================================================== *)
(** ** The upload widget, [fetch] variant *)
(* ===================================================================== *)

Module Widget.

Inductive StatusKind : Type := idle | uploading | success | error.

Record UploadStatus : Type := mkUploadStatus {
  status : StatusKind;
  progress : Z;
  message : option string
}.

Record UploadedFile : Type := mkUploadedFile {
  id : string;
  fileName : string;
  originalName : string;
  size : Z;
  type : string;
  url : string;
  uploadedAt : Z
}.

(** The component's state: the two [useState] cells the upload path
    writes, and the callbacks handed to [setTimeout] that have not run
    yet, each with its delay (milliseconds) and the [file.name] its
    closure holds. *)
Record State : Type := mkState {
  uploadedFiles : list UploadedFile;
  uploadStatuses : gmap string UploadStatus;
  timers : list (Z * string)
}.

(** The JSON body of a 2xx answer, as the component reads it. *)
Record UploadJson : Type := mkUploadJson {
  r_id : string;
  r_filename : string;
  r_originalName : string;
  r_url : string;
  r_uploadedAt : option Z
}.

(** The JSON body of any other answer: [errorData.error] may be absent. *)
Record ErrorJson : Type := mkErrorJson { e_error : option string }.

(** How [await fetch('/api/upload', ...)] ends. In both answers [None]
    is a body for which [response.json()] rejects. *)
Inductive Fetched : Type :=
| NetworkError
| Ok (result : option UploadJson)
| NotOk (errorData : option ErrorJson).

Definition clearDelay : Z := 2000.

Definition set_status (name : string) (st : UploadStatus) (s : State) : State :=
  {| uploadedFiles := uploadedFiles s;
     uploadStatuses := <[name := st]> (uploadStatuses s);
     timers := timers s |}.

(** [x || 'Upload failed'] *)
Definition or_upload_failed (x : option string) : string :=
  match x with
  | Some m => if JS.truthy m then m else "Upload failed"
  | None => "Upload failed"
  end.

(** [x || new Date().toISOString()] on a time stamp; [None] is a field
    that is absent. *)
Definition or_now (x : option Z) (now : Z) : Z :=
  match x with
  | Some t => t
  | None => now
  end.

(** The first lines of [onDrop]: every accepted file is shown as
    uploading at 50%. *)
Definition initialStatuses (acceptedFiles : list File.t) : gmap string UploadStatus :=
  foldl (fun m file => <[File.name file := mkUploadStatus uploading 50 None]> m)
        ∅ acceptedFiles.

(** [{ ...prev, ...initialStatuses }]: the right operand wins. *)
Definition begin_drop (acceptedFiles : list File.t) (s : State) : State :=
  {| uploadedFiles := uploadedFiles s;
     uploadStatuses := initialStatuses acceptedFiles ∪ uploadStatuses s;
     timers := timers s |}.

(** One turn of the [for] loop, once its [fetch] has settled. *)
Definition upload_one (now : Z) (file : File.t) (o : Fetched) (s : State) : State :=
  match o with
  | Ok (Some result) =>
      let s1 := set_status (File.name file)
                  (mkUploadStatus success 100 (Some "Upload complete!")) s in
      let newFile :=
        {| id := r_id result;
           fileName := r_filename result;
           originalName := r_originalName result;
           size := File.size file;
           type := File.type file;
           url := r_url result;
           uploadedAt := or_now (r_uploadedAt result) now |} in
      {| uploadedFiles := newFile :: uploadedFiles s1;
         uploadStatuses := uploadStatuses s1;
         timers := timers s1 ++ [(clearDelay, File.name file)] |}
  | NotOk errorData =>
      let errorData' :=
        match errorData with
        | Some e => e
        | None => mkErrorJson (Some "Upload failed")
        end in
      set_status (File.name file)
        (mkUploadStatus error 0 (Some (or_upload_failed (e_error errorData')))) s
  | Ok None | NetworkError =>
      (* the [catch] branch *)
      set_status (File.name file)
        (mkUploadStatus error 0 (Some "Upload failed")) s
  end.

(** The pending callback number [i] runs: it deletes the entry of its
    file name from the statuses. *)
Definition fire (i : nat) (s : State) : State :=
  match timers s !! i with
  | Some (_, name) =>
      {| uploadedFiles := uploadedFiles s;
         uploadStatuses := delete name (uploadStatuses s);
         timers := delete i (timers s) |}
  | None => s
  end.

(** One turn of the loop of [onDrop]: its file; the pending callbacks that
    run while the turn awaits its request, each given by its position
    among those pending at that moment; how the request ends; and the
    clock when the answer is handled. *)
Record Turn : Type := mkTurn {
  t_file : File.t;
  t_fired : list nat;
  t_outcome : Fetched;
  t_now : Z
}.

Definition turn (s : State) (t : Turn) : State :=
  upload_one (t_now t) (t_file t) (t_outcome t)
             (foldl (fun s' i => fire i s') s (t_fired t)).

(** [onDrop]: the statuses are initialised, then the turns follow one
    another. While a turn awaits, callbacks scheduled with [setTimeout]
    may run; the other handlers of the component (a second drop, a delete,
    a refresh) are taken not to run during the drop. *)
Definition onDrop (turns : list Turn) (s : State) : State :=
  foldl turn (begin_drop (map t_file turns) s) turns.

End Widget.

(* ===================================================================== *)
(** ** The upload widget, [XMLHttpRequest] variant *)
(* ===================================================================== *)

Module WidgetXhr.

Record UploadedFile : Type := mkUploadedFile {
  id : string;
  name : string;
  size : Z;
  type : string;
  url : string;
  uploadedAt : Z
}.

Record State : Type := mkState {
  files : list UploadedFile;
  uploadProgress : gmap string Z
}.

(** What the [load] listener reads of [JSON.parse(xhr.responseText)]. *)
Record ResponseJson : Type := mkResponseJson { r_id : string; r_url : string }.

(** What can happen to one request. [percent] is
    [Math.round((event.loaded / event.total) * 100)]; a [response] of
    [None] is a text that [JSON.parse] rejects; [Failed] is the [error]
    or [abort] event, for which no listener is registered. *)
Inductive XhrEvent : Type :=
| Progress (lengthComputable : bool) (percent : Z)
| Load (status : Z) (response : option ResponseJson)
| Failed.

Definition on_event (now : Z) (file : File.t) (ev : XhrEvent) (s : State) : State :=
  match ev with
  | Progress lengthComputable percent =>
      if lengthComputable
      then {| files := files s;
              uploadProgress := <[File.name file := percent]> (uploadProgress s) |}
      else s
  | Load status response =>
      if status =? 200 then
        match response with
        | Some r =>
            let newFile :=
              {| id := r_id r;
                 name := File.name file;
                 size := File.size file;
                 type := File.type file;
                 url := r_url r;
                 uploadedAt := now |} in
            {| files := files s ++ [newFile];
               uploadProgress := delete (File.name file) (uploadProgress s) |}
        | None => s
        end
      else s
  | Failed => s
  end.

End WidgetXhr.

(* ===================================================================== *)
(** ** The specification's vocabulary *)
(* ===================================================================== *)

Module Words.

(** [s] contains the character [c]. *)
Fixpoint has_char (c : ascii) (s : string) : bool :=
  match s with
  | EmptyString => false
  | String a s' => Ascii.eqb a c || has_char c s'
  end.

(** The final [c]-separated segment of [s]: what follows the last [c],
    or all of [s] when it has none. *)
Fixpoint final_segment (c : ascii) (s : string) : string :=
  match s with
  | EmptyString => EmptyString
  | String a s' =>
      if has_char c s' then final_segment c s'
      else if Ascii.eqb a c then s' else s
  end.

(** The fixed lookup of the List Endpoint, as the specification gives it. *)
Definition mime_table : list (string * string) :=
  [ ("jpg", "image/jpeg");
    ("jpeg", "image/jpeg");
    ("png", "image/png");
    ("gif", "image/gif");
    ("webp", "image/webp");
    ("pdf", "application/pdf");
    ("txt", "text/plain");
    ("md", "text/plain");
    ("doc", "application/msword");
    ("docx", "application/vnd.openxmlformats-officedocument.wordprocessingml.document") ].

Fixpoint assoc (k : string) (t : list (string * string)) : option string :=
  match t with
  | [] => None
  | (k', v) :: t' => if String.eqb k k' then Some v else assoc k t'
  end.

(** The MIME type of an extension: the table's entry for the extension in
    lower case, the generic binary type when there is none. *)
Definition mime_of_extension (extension : string) : string :=
  match assoc (JS.toLowerCase extension) mime_table with
  | Some m => m
  | None => "application/octet-stream"
  end.

(** A list of descriptors is newest-first: whenever two of its entries
    have different creation times, the later one comes first. *)
Definition newest_first (l : list Files.FileDescriptor) : Prop :=
  ∀ (i j : nat) (a b : Files.FileDescriptor),
    l !! i = Some a → l !! j = Some b →
    Files.uploadedAt b < Files.uploadedAt a → (i < j)%nat.

(** The Upload Endpoint's limits: ten mebibytes, and the allow-list of
    declared MIME types. *)
Definition mebibyte : Z := 2 ^ 20.

Definition allow_list : list string :=
  [ "image/jpeg"; "image/png"; "image/gif"; "image/webp";
    "application/pdf"; "text/plain"; "text/markdown";
    "application/msword";
    "application/vnd.openxmlformats-officedocument.wordprocessingml.document" ].

(** The entries of the Storage Directory; none when it does not exist. *)
Definition entries (d : Storage.Dir) : list Storage.Entry :=
  match d with
  | Some es => es
  | None => []
  end.

(** The operating system lets the Upload Endpoint store a file under
    [name]: the name is that of a file directly inside the directory, the
    write is carried out and, when the directory is missing, its creation
    is. *)
Definition can_store (fl : Storage.Faults) (d : Storage.Dir) (name : string) : Prop :=
  Storage.child_name name = true ∧
  Storage.f_writeFile fl name = Storage.WriteOk ∧
  (d = None → Storage.f_mkdir fl = false).

(** [s] starts with [p]. *)
Definition starts_with (s p : string) : Prop := ∃ rest, s = p +:+ rest.

(** An upload that did not complete: the request failed on the network,
    the answer was not a 2xx, or the body of a 2xx answer was unreadable. *)
Definition failed (o : Widget.Fetched) : Prop :=
  ∀ result, o ≠ Widget.Ok (Some result).

(** The descriptor the [fetch]-based widget builds for a completed upload. *)
Definition descriptor (now : Z) (file : File.t) (result : Widget.UploadJson)
    : Widget.UploadedFile :=
  {| Widget.id := Widget.r_id result;
     Widget.fileName := Widget.r_filename result;
     Widget.originalName := Widget.r_originalName result;
     Widget.size := File.size file;
     Widget.type := File.type file;
     Widget.url := Widget.r_url result;
     Widget.uploadedAt := Widget.or_now (Widget.r_uploadedAt result) now |}.

(** The descriptors of the uploads of one drop that completed, in the
    order of the drop. *)
Definition completed (turns : list Widget.Turn) : list Widget.UploadedFile :=
  omap (λ t, match Widget.t_outcome t with
             | Widget.Ok (Some result) =>
                 Some (descriptor (Widget.t_now t) (Widget.t_file t) result)
             | _ => None
             end) turns.

End Words.

(* ===================================================================== *)
(** ** What the widgets and the preview modal show *)
(* ===================================================================== *)

Module Display.

(** [s.includes(sub)] on strings. *)
Fixpoint includes (s sub : string) : bool :=
  JS.startsWith s sub ||
  match s with
  | EmptyString => false
  | String _ s' => includes s' sub
  end.

(** [getFileIcon] of the [fetch]-based widget and of the preview modal
    (the two definitions are the same). *)
Definition getFileIcon (type : string) : string :=
  if JS.startsWith type "image/" then "🖼️"
  else if String.eqb type "application/pdf" then "📄"
  else if JS.startsWith type "text/" then "📝"
  else if includes type "word" then "📄"
  else "📁".

End Display.

(* ===================================================================== *)
(** ** The widgets' delete and refresh actions *)
(* ===================================================================== *)

Module Actions.

(** How [await fetch(`/api/upload/${fileId}`, { method: 'DELETE' })] ends:
    the request fails, or an answer comes with its [ok] flag. *)
Inductive Deleted : Type :=
| DeleteNetworkError
| DeleteAnswer (ok : bool).

(** [prev.filter(file => file.id !== fileId)] *)
Definition without (fileId : string) (prev : list Widget.UploadedFile)
    : list Widget.UploadedFile :=
  List.filter (λ file, negb (String.eqb (Widget.id file) fileId)) prev.

(** [deleteFile] of the [fetch]-based widget. *)
Definition deleteFile (fileId : string) (o : Deleted) (s : Widget.State)
    : Widget.State :=
  match o with
  | DeleteAnswer true =>
      {| Widget.uploadedFiles := without fileId (Widget.uploadedFiles s);
         Widget.uploadStatuses := Widget.uploadStatuses s;
         Widget.timers := Widget.timers s |}
  | DeleteAnswer false => s
  | DeleteNetworkError => s
  end.

(** [deleteFile] of the [XMLHttpRequest]-based widget: the answer is not
    looked at. *)
Definition xhrDeleteFile (fileId : string) (o : Deleted) (s : WidgetXhr.State)
    : WidgetXhr.State :=
  match o with
  | DeleteAnswer _ =>
      {| WidgetXhr.files :=
           List.filter (λ file, negb (String.eqb (WidgetXhr.id file) fileId))
                       (WidgetXhr.files s);
         WidgetXhr.uploadProgress := WidgetXhr.uploadProgress s |}
  | DeleteNetworkError => s
  end.

(** The body of a [/api/files] answer: [data.files] may be absent. *)
Record ListJson : Type := mkListJson { files : option (list Widget.UploadedFile) }.

(** How [await fetch('/api/files')] ends; a [data] of [None] is a body for
    which [response.json()] rejects. *)
Inductive Listed : Type :=
| ListNetworkError
| ListAnswer (ok : bool) (data : option ListJson).

(** [fetchFiles]: the widget's state and its [isLoading] cell afterwards. *)
Definition fetchFiles (o : Listed) (s : Widget.State) (isLoading : bool)
    : Widget.State * bool :=
  match o with
  | ListAnswer true (Some data) =>
      ({| Widget.uploadedFiles := match files data with
                                  | Some l => l
                                  | None => []
                                  end;
          Widget.uploadStatuses := Widget.uploadStatuses s;
          Widget.timers := Widget.timers s |}, false)
  | ListAnswer true None => (s, false)
  | ListAnswer false _ => (s, false)
  | ListNetworkError => (s, false)
  end.

End Actions.

(* ===================================================================== *)
(** ** The preview modal *)
(* ===================================================================== *)

Module Preview.

(** The three [useState] cells of the modal. *)
Record TextState : Type := mkTextState {
  textContent : string;
  isLoading : bool;
  error : string
}.

(** The guard of the effect that loads text:
    [file && file.type.startsWith('text/') && isOpen]. *)
Definition loads_text (file : option Widget.UploadedFile) (isOpen : bool) : bool :=
  match file with
  | Some f => JS.startsWith (Widget.type f) "text/" && isOpen
  | None => false
  end.

(** The effect's synchronous part. *)
Definition begin_load (st : TextState) : TextState :=
  {| textContent := textContent st; isLoading := true; error := EmptyString |}.

(** The effect's promise chain: [Some content] when [fetch(file.url)] and
    [response.text()] resolve, [None] when one of them rejects. *)
Definition end_load (r : option string) (st : TextState) : TextState :=
  match r with
  | Some content =>
      {| textContent := content; isLoading := false; error := error st |}
  | None =>
      {| textContent := textContent st; isLoading := false;
         error := "Failed to load file content" |}
  end.

(** What the modal puts in its content area. *)
Inductive Content : Type :=
| ImageView (src alt : string)
| PdfView (src title : string)
| TextLoading
| TextError (message : string)
| TextShown (content : string)
| NoPreview (icon href : string).

(** [file.originalName || file.fileName] *)
Definition displayName (f : Widget.UploadedFile) : string :=
  if JS.truthy (Widget.originalName f) then Widget.originalName f
  else Widget.fileName f.

Definition renderPreviewContent (f : Widget.UploadedFile) (st : TextState) : Content :=
  if JS.startsWith (Widget.type f) "image/" then
    ImageView (Widget.url f) (displayName f)
  else if String.eqb (Widget.type f) "application/pdf" then
    PdfView (Widget.url f) (displayName f)
  else if JS.startsWith (Widget.type f) "text/" then
    if isLoading st then TextLoading
    else if JS.truthy (error st) then TextError (error st)
    else TextShown (textContent st)
  else NoPreview (Display.getFileIcon (Widget.type f)) (Widget.url f).

(** The component: [None] is the [null] returned by
    [if (!isOpen || !file) return null]. *)
Definition render (file : option Widget.UploadedFile) (isOpen : bool)
    (st : TextState) : option Content :=
  match file with
  | Some f => if isOpen then Some (renderPreviewContent f st) else None
  | None => None
  end.

(** The callbacks the key handler can call. *)
Inductive Callback : Type := onClose | onPrevious | onNext.

(** [handleKeyDown]; [hasPrevious] and [hasNext] tell whether the optional
    callbacks were given. *)
Definition handleKeyDown (isOpen hasPrevious hasNext : bool) (key : string)
    : option Callback :=
  if negb isOpen then None
  else if String.eqb key "Escape" then Some onClose
  else if String.eqb key "ArrowLeft" && hasPrevious then Some onPrevious
  else if String.eqb key "ArrowRight" && hasNext then Some onNext
  else None.

(** The scroll-lock effect on [document.body.style.overflow], and its
    clean-up. *)
Definition scroll_effect (isOpen : bool) (overflow : string) : string :=
  if isOpen then "hidden" else "unset".

Definition scroll_cleanup (overflow : string) : string := "unset".

(** What happens to the mounted modal: it is rendered with a value of
    [isOpen], or it is unmounted. *)
Inductive Lifecycle : Type :=
| Render (isOpen : bool)
| Unmount.

(** The effect with dependency [[isOpen]]: it runs on the first render;
    when [isOpen] has changed, the clean-up of the last run comes first;
    unmounting runs the clean-up. The state is the [isOpen] of the last
    run ([None] when not mounted) and the body's overflow. *)
Definition scroll_step (c : option bool * string) (ev : Lifecycle)
    : option bool * string :=
  match ev, fst c with
  | Render b, None => (Some b, scroll_effect b (snd c))
  | Render b, Some b' =>
      if Bool.eqb b b' then c
      else (Some b, scroll_effect b (scroll_cleanup (snd c)))
  | Unmount, Some _ => (None, scroll_cleanup (snd c))
  | Unmount, None => c
  end.

Definition scroll_run (evs : list Lifecycle) (c : option bool * string)
    : option bool * string :=
  foldl scroll_step c evs.

End Preview.

(* ===================================================================== *)
(** ** More vocabulary *)
(* ===================================================================== *)

Module Terms.

(** A file the Upload Endpoint accepts. *)
Definition valid (file : File.t) : Prop :=
  File.size file <= 10 * Words.mebibyte ∧ File.type file ∈ Words.allow_list.

(** The name under which the Upload Endpoint stores a file. *)
Definition stored_name (env : Upload.Env) (file : File.t) : string :=
  Upload.uuid env +:+ "." +:+ Words.final_segment "." (File.name file).

(** The request that uploads [file]. *)
Definition upload_of (file : File.t) : Upload.Request :=
  Upload.FormData (Some (Upload.FormFile file)).

(** The types the List Endpoint can give to a file. *)
Definition listed_types : list string :=
  [ "image/jpeg"; "image/png"; "image/gif"; "image/webp";
    "application/pdf"; "text/plain"; "application/msword";
    "application/vnd.openxmlformats-officedocument.wordprocessingml.document";
    "application/octet-stream" ].

(** A status that is no longer in progress. *)
Definition settled (st : Widget.UploadStatus) : Prop :=
  Widget.status st = Widget.success ∨ Widget.status st = Widget.error.

(** The file names of a drop. *)
Definition dropped (turns : list Widget.Turn) : list string :=
  map (λ t, File.name (Widget.t_file t)) turns.

(** The callbacks a drop schedules: one per completed upload, in order. *)
Definition scheduled (turns : list Widget.Turn) : list (Z * string) :=
  omap (λ t, match Widget.t_outcome t with
             | Widget.Ok (Some _) => Some (2000, File.name (Widget.t_file t))
             | _ => None
             end) turns.

(** No scheduled callback runs during the drop. *)
Definition undisturbed (turns : list Widget.Turn) : Prop :=
  Forall (λ t, Widget.t_fired t = []) turns.


(** The content area shows the text view. *)
Definition is_text_view (c : Preview.Content) : Prop :=
  match c with
  | Preview.TextLoading | Preview.TextError _ | Preview.TextShown _ => True
  | _ => False
  end.

End Terms.

(* ===================================================================== *)
(** ** Facts about the built-ins *)
(* ===================================================================== *)

Lemma append_assoc (s1 s2 s3 : string) : (s1 +:+ s2) +:+ s3 = s1 +:+ (s2 +:+ s3).
Proof.
  induction s1 as [|a s1 IH]; [done|].
  change (String a ((s1 +:+ s2) +:+ s3) = String a (s1 +:+ (s2 +:+ s3))).
  by rewrite IH.
Qed.

Lemma pop_cons2 {A : Type} (x y : A) (l : list A) :
  JS.pop (x :: y :: l) = (x :: fst (JS.pop (y :: l)), snd (JS.pop (y :: l))).
Proof. cbn [JS.pop]. by destruct (JS.pop l), l. Qed.

Section Builtins.
Variable c : ascii.

Lemma split_cons (s : string) : ∃ p ps, JS.split c s = p :: ps.
Proof.
  induction s as [|a s IH]; simpl; [eauto|].
  destruct IH as (p & ps & ->). destruct (Ascii.eqb a c); eauto.
Qed.

Lemma split_no_char (s : string) :
  Words.has_char c s = false → JS.split c s = [s].
Proof.
  induction s as [|a s IH]; simpl; [done|].
  intros [Ha Hs]%orb_false_iff. rewrite Ha, (IH Hs). done.
Qed.

Lemma split_has_char (s : string) :
  Words.has_char c s = true → ∃ p q qs, JS.split c s = p :: q :: qs.
Proof.
  induction s as [|a s IH]; simpl; [done|].
  destruct (Ascii.eqb a c); simpl.
  - intros _. destruct (split_cons s) as (q & qs & ->). eauto.
  - intros (p & q & qs & ->)%IH. eauto.
Qed.

Lemma join_split (s : string) : JS.join (String c EmptyString) (JS.split c s) = s.
Proof.
  induction s as [|a s IH]; simpl; [done|].
  destruct (Ascii.eqb_spec a c) as [->|_].
  - destruct (split_cons s) as (q & qs & Hq). rewrite Hq in *.
    simpl in *. by rewrite IH.
  - destruct (split_cons s) as (q & qs & Hq). rewrite Hq in *.
    simpl in *. destruct qs; simpl in *; by rewrite <- IH.
Qed.

Lemma final_segment_no_char (s : string) :
  Words.has_char c s = false → Words.final_segment c s = s.
Proof.
  destruct s as [|a s]; simpl; [done|].
  intros [Ha Hs]%orb_false_iff. by rewrite Hs, Ha.
Qed.

Lemma pop_split (s : string) :
  snd (JS.pop (JS.split c s)) = Some (Words.final_segment c s).
Proof.
  induction s as [|a s IH]; [done|].
  cbn [JS.split Words.final_segment].
  destruct (Words.has_char c s) eqn:Hs.
  - destruct (split_has_char s Hs) as (p & q & qs & Hsp).
    rewrite Hsp in *.
    destruct (Ascii.eqb a c); rewrite !pop_cons2 in *;
      destruct (JS.pop (q :: qs)) as [r o]; simpl in *; done.
  - rewrite (split_no_char s Hs) in *.
    destruct (Ascii.eqb a c); simpl; [|done].
    simpl in IH. rewrite final_segment_no_char in IH by done. done.
Qed.

End Builtins.

Lemma pop_snoc {A : Type} (l : list A) :
  l ≠ [] → ∃ r x, JS.pop l = (r, Some x) ∧ l = (r ++ [x])%list.
Proof.
  induction l as [|a l IH]; [done|]. intros _.
  destruct l as [|b l]; [by exists [], a|].
  destruct IH as (r & x & Hp & Hl); [done|].
  exists (a :: r), x. rewrite pop_cons2, Hp. simpl. by rewrite Hl.
Qed.

Lemma join_snoc (sep : string) (r : list string) (x : string) :
  r ≠ [] → JS.join sep (r ++ [x])%list = JS.join sep r +:+ sep +:+ x.
Proof.
  induction r as [|a r IH]; [done|]. intros _.
  destruct r as [|b r]; [done|].
  change (JS.join sep ((a :: b :: r) ++ [x])%list)
    with (a +:+ sep +:+ JS.join sep ((b :: r) ++ [x])%list).
  rewrite IH by done. cbn [JS.join].
  by rewrite !append_assoc.
Qed.

(** *** [sort] *)

Section Sort.
Context {A : Type} (cmp : A → A → Z).

Lemma sort_insert_perm (x : A) (l : list A) : JS.sort_insert cmp x l ≡ₚ x :: l.
Proof.
  induction l as [|y l IH]; simpl; [done|].
  destruct (cmp x y <=? 0); [done|].
  rewrite IH. apply Permutation_swap.
Qed.

Lemma sort_perm (l : list A) : JS.sort cmp l ≡ₚ l.
Proof.
  induction l as [|x l IH]; simpl; [done|].
  by rewrite sort_insert_perm, IH.
Qed.

(** The comparator orders: of two elements one may stay in front of the
    other, and staying in front is transitive. *)
Hypothesis cmp_total : ∀ x y, 0 < cmp x y → cmp y x <= 0.
Hypothesis cmp_trans : ∀ x y z, cmp x y <= 0 → cmp y z <= 0 → cmp x z <= 0.

Lemma sort_insert_sorted (x : A) (l : list A) :
  StronglySorted (JS.stays_before cmp) l →
  StronglySorted (JS.stays_before cmp) (JS.sort_insert cmp x l).
Proof.
  induction 1 as [|y l Hl IH Hy]; simpl.
  - repeat constructor.
  - destruct (Z.leb_spec (cmp x y) 0) as [Hxy|Hxy].
    + constructor; [by constructor|].
      constructor; [done|].
      eapply Forall_impl; [exact Hy|]. intros z Hz. by eapply cmp_trans.
    + constructor; [done|].
      rewrite sort_insert_perm. constructor; [|done].
      by apply cmp_total.
Qed.

Lemma sort_sorted (l : list A) : StronglySorted (JS.stays_before cmp) (JS.sort cmp l).
Proof.
  induction l as [|x l IH]; simpl; [constructor|].
  by apply sort_insert_sorted.
Qed.

Lemma sorted_lookup (l : list A) (i j : nat) (a b : A) :
  StronglySorted (JS.stays_before cmp) l → (i < j)%nat →
  l !! i = Some a → l !! j = Some b → JS.stays_before cmp a b.
Proof.
  intros Hl. revert i j.
  induction Hl as [|y l Hl IH Hy]; intros i j Hij Hi Hj; [done|].
  destruct j as [|j]; [lia|]. simpl in Hj.
  destruct i as [|i]; simpl in Hi.
  - injection Hi as ->. rewrite Forall_forall in Hy.
    apply Hy, list_elem_of_lookup. eauto.
  - apply (IH i j); [lia|done..].
Qed.

End Sort.

Lemma by_newest_sorted (l : list Files.FileDescriptor) :
  Words.newest_first (JS.sort Files.by_newest l).
Proof.
  intros i j a b Hi Hj Hlt.
  destruct (decide (i < j)%nat) as [|Hge]; [done|exfalso].
  destruct (decide (i = j)) as [->|Hne].
  - rewrite Hi in Hj. injection Hj as ->. lia.
  - assert (Files.by_newest b a <= 0) as Hba.
    { eapply (sorted_lookup Files.by_newest) with (i := j) (j := i);
        [apply sort_sorted; unfold Files.by_newest; intros; lia | lia | done..]. }
    unfold Files.by_newest in Hba. lia.
Qed.

(* ===================================================================== *)
(** ** GET /api/files *)
(* ===================================================================== *)

Lemma getFileType_table (extension : string) :
  Files.getFileType extension = Words.mime_of_extension extension.
Proof.
  unfold Files.getFileType, Words.mime_of_extension.
  generalize (JS.toLowerCase extension) as ext. intros ext.
  unfold JS.includes, Words.mime_table. cbn [existsb Words.assoc].
  repeat match goal with
         | |- context [String.eqb ext ?lit] =>
             destruct (String.eqb_spec ext lit) as [->|_]; [reflexivity|]
         end.
  reflexivity.
Qed.

Lemma or_empty_Some (s : string) : JS.or_empty (Some s) = s.
Proof. unfold JS.or_empty, JS.truthy. by destruct (String.eqb_spec s ""). Qed.

Lemma decompose_extension (fileName : string) :
  snd (Files.decompose fileName) = Some (Words.final_segment "." fileName).
Proof.
  unfold Files.decompose. rewrite <- pop_split.
  by destruct (JS.pop (JS.split "." fileName)).
Qed.

Lemma describe_inv (fl : Storage.Faults) (d : Storage.Dir) (name : string)
    (desc : Files.FileDescriptor) :
  Files.describe fl d name = Some desc →
  Files.fileName desc = name ∧
  Files.type desc = Words.mime_of_extension (Words.final_segment "." name).
Proof.
  unfold Files.describe. destruct (Storage.stat fl d name); [|done].
  pose proof (decompose_extension name) as He.
  destruct (Files.decompose name) as [i e]. simpl in He. subst e.
  intros [= <-]. cbn [Files.fileName Files.type].
  fold (JS.or_empty (Some (Words.final_segment "." name))).
  by rewrite or_empty_Some, getFileType_table.
Qed.

Lemma GET_payload (fl : Storage.Faults) (d : Storage.Dir) :
  Files.GET fl d =
    json_ok (match Storage.readdir fl d with
             | Some names =>
                 JS.sort Files.by_newest
                   (Files.non_null (map (Files.describe fl d) names))
             | None => []
             end).
Proof. unfold Files.GET. by destruct (Storage.readdir fl d). Qed.

(** The listing holds one descriptor for every entry that [stat] accepts,
    and nothing else. *)
Lemma GET_complete (fl : Storage.Faults) (d : Storage.Dir) (names : list string)
    (files : list Files.FileDescriptor) :
  Storage.readdir fl d = Some names →
  Files.GET fl d = json_ok files →
  files ≡ₚ Files.non_null (map (Files.describe fl d) names).
Proof.
  intros Hr. rewrite GET_payload, Hr. intros [= <-]. apply sort_perm.
Qed.

(** C2: when the Storage Directory does not exist or cannot be opened, the
    List Endpoint answers 200 with the empty list, the very response it
    gives for a directory that exists and holds no upload. *)
Theorem list_unreadable_directory_is_empty (fl : Storage.Faults) (d : Storage.Dir) :
  d = None ∨ Storage.f_readdir fl = true →
  Files.GET fl d = {| status := 200; body := Payload [] |} ∧
  Files.GET fl d = Files.GET Storage.no_faults (Some []).
Proof.
  intros H. assert (Storage.readdir fl d = None) as Hr.
  { unfold Storage.readdir. destruct H as [->|H]; [done|].
    rewrite H. by destruct d. }
  by rewrite GET_payload, Hr.
Qed.

Lemma list_unreadable_directory_is_empty_witness :
  (Files.GET Storage.no_faults None = {| status := 200; body := Payload [] |} ∧
   Files.GET Storage.no_faults None = Files.GET Storage.no_faults (Some [])) ∧
  (Files.GET (Storage.mkFaults true false (λ _, Storage.WriteOk) (λ _, false) (λ _, false))
             (Some [Storage.mkEntry "7c9e6679.png" [] 1700000000000])
     = {| status := 200; body := Payload [] |} ∧
   Files.GET (Storage.mkFaults true false (λ _, Storage.WriteOk) (λ _, false) (λ _, false))
             (Some [Storage.mkEntry "7c9e6679.png" [] 1700000000000])
     = Files.GET Storage.no_faults (Some [])).
Proof.
  split.
  - apply (list_unreadable_directory_is_empty Storage.no_faults None).
    left. reflexivity.
  - apply (list_unreadable_directory_is_empty
             (Storage.mkFaults true false (λ _, Storage.WriteOk) (λ _, false) (λ _, false))
             (Some [Storage.mkEntry "7c9e6679.png" [] 1700000000000])).
    right. reflexivity.
Defined.

(** C4: the array a GET /api/files response carries is ordered by creation
    time, newest first: of two entries with different creation times the
    later one comes first. Entries with equal times may come in any order. *)
Theorem list_sorted_newest_first (fl : Storage.Faults) (d : Storage.Dir)
    (files : list Files.FileDescriptor) :
  Files.GET fl d = json_ok files → Words.newest_first files.
Proof.
  rewrite GET_payload. intros [= <-].
  destruct (Storage.readdir fl d); [apply by_newest_sorted|].
  intros i j a b Hi. done.
Qed.

Lemma list_sorted_newest_first_witness :
  Words.newest_first
    [ {| Files.id := "b"; Files.fileName := "b.png"; Files.originalName := "b.png";
         Files.size := 2; Files.uploadedAt := 20; Files.url := "/uploads/b.png";
         Files.type := "image/png" |};
      {| Files.id := "a"; Files.fileName := "a.txt"; Files.originalName := "a.txt";
         Files.size := 1; Files.uploadedAt := 10; Files.url := "/uploads/a.txt";
         Files.type := "text/plain" |} ].
Proof.
  apply (list_sorted_newest_first Storage.no_faults
           (Some [ Storage.mkEntry "a.txt" [Byte.x61] 10;
                   Storage.mkEntry "b.png" [Byte.x62; Byte.x63] 20 ])).
  vm_compute. reflexivity.
Defined.

(** C6: every descriptor of a GET /api/files response has as type the entry
    of the fixed table for the final '.'-separated segment of its file name
    taken in lower case (jpg and jpeg give image/jpeg, png image/png, gif
    image/gif, webp image/webp, pdf application/pdf, txt and md text/plain,
    doc application/msword, docx the wordprocessingml type), and
    application/octet-stream when the table has no such entry. *)
Theorem list_type_from_extension (fl : Storage.Faults) (d : Storage.Dir)
    (files : list Files.FileDescriptor) (desc : Files.FileDescriptor) :
  Files.GET fl d = json_ok files → desc ∈ files →
  Files.type desc =
    Words.mime_of_extension (Words.final_segment "." (Files.fileName desc)).
Proof.
  rewrite GET_payload. intros [= <-].
  destruct (Storage.readdir fl d) as [names|]; [|by intros ?%elem_of_nil].
  rewrite sort_perm. unfold Files.non_null.
  intros (o & Ho & ->)%list_elem_of_omap.
  apply list_elem_of_fmap in Ho as (name & Hd & _).
  symmetry in Hd. apply describe_inv in Hd as [-> ->]. done.
Qed.

Lemma list_type_from_extension_witness :
  "image/jpeg" = Words.mime_of_extension (Words.final_segment "." "holiday.2024.JPG").
Proof.
  apply (list_type_from_extension Storage.no_faults
           (Some [ Storage.mkEntry "holiday.2024.JPG" [Byte.x61] 10 ])
           [ {| Files.id := "holiday.2024"; Files.fileName := "holiday.2024.JPG";
                Files.originalName := "holiday.2024.JPG";
                Files.size := 1; Files.uploadedAt := 10;
                Files.url := "/uploads/holiday.2024.JPG";
                Files.type := "image/jpeg" |} ]
           {| Files.id := "holiday.2024"; Files.fileName := "holiday.2024.JPG";
              Files.originalName := "holiday.2024.JPG";
              Files.size := 1; Files.uploadedAt := 10;
              Files.url := "/uploads/holiday.2024.JPG";
              Files.type := "image/jpeg" |}).
  - vm_compute. reflexivity.
  - apply list_elem_of_here.
Defined.

(** C10: the List Endpoint's decomposition of a file name. When the name
    contains a '.', the identifier, a '.', and the extension put together
    give the name back; when it contains none, the identifier is empty and
    the extension is the whole name. *)
Theorem decompose_reconstructs (fileName : string) :
  (Words.has_char "." fileName = true →
   ∃ id extension,
     Files.decompose fileName = (id, Some extension) ∧
     id +:+ "." +:+ extension = fileName) ∧
  (Words.has_char "." fileName = false →
   Files.decompose fileName = (EmptyString, Some fileName)).
Proof.
  unfold Files.decompose. split; intros Hdot.
  - destruct (split_has_char "." fileName Hdot) as (p & q & qs & Hsp).
    pose proof (join_split "." fileName) as Hj. rewrite Hsp in *.
    destruct (pop_snoc (p :: q :: qs)) as (r & x & Hp & Hl); [done|].
    rewrite Hp. exists (JS.join "." r), x. split; [done|].
    rewrite Hl in Hj. rewrite join_snoc in Hj; [done|].
    intros ->. done.
  - by rewrite split_no_char.
Qed.

Lemma decompose_reconstructs_witness :
  (∃ id extension,
     Files.decompose "3f2a.tar.gz" = (id, Some extension) ∧
     id +:+ "." +:+ extension = "3f2a.tar.gz") ∧
  Files.decompose "README" = (EmptyString, Some "README").
Proof.
  split.
  - apply (proj1 (decompose_reconstructs "3f2a.tar.gz")). reflexivity.
  - apply (proj2 (decompose_reconstructs "README")). reflexivity.
Defined.

(* ===================================================================== *)
(** ** POST /api/upload *)
(* ===================================================================== *)

Lemma includes_elem_of (l : list string) (x : string) :
  JS.includes l x = true ↔ x ∈ l.
Proof.
  unfold JS.includes. rewrite existsb_exists. split.
  - intros (y & Hy & ->%String.eqb_eq). by apply list_elem_of_In.
  - intros Hx. exists x. split; [by apply list_elem_of_In | apply String.eqb_refl].
Qed.

Lemma includes_not_elem_of (l : list string) (x : string) :
  JS.includes l x = false ↔ x ∉ l.
Proof. rewrite <- includes_elem_of. by destruct (JS.includes l x). Qed.

Lemma storedName_final_segment (fileId name : string) :
  Upload.storedName fileId name = fileId +:+ "." +:+ Words.final_segment "." name.
Proof. unfold Upload.storedName. by rewrite pop_split. Qed.

Lemma put_entry_elem (e : Storage.Entry) (es : list Storage.Entry) :
  ∃ e', e' ∈ Storage.put_entry e es ∧
        Storage.e_name e' = Storage.e_name e ∧ Storage.e_data e' = Storage.e_data e.
Proof.
  induction es as [|x es (e' & He' & Hn & Hd)]; simpl.
  - exists e. split; [apply list_elem_of_here | done].
  - destruct (String.eqb (Storage.e_name x) (Storage.e_name e)).
    + eexists. split; [apply list_elem_of_here | done].
    + exists e'. split; [by apply list_elem_of_further | done].
Qed.

Lemma put_entry_fresh (e : Storage.Entry) (es : list Storage.Entry) :
  (∀ x, x ∈ es → Storage.e_name x ≠ Storage.e_name e) →
  Storage.put_entry e es = (es ++ [e])%list.
Proof.
  induction es as [|x es IH]; simpl; [done|]. intros H.
  destruct (String.eqb_spec (Storage.e_name x) (Storage.e_name e)) as [Heq|_].
  - destruct (H x); [apply list_elem_of_here | done].
  - rewrite IH; [done|]. intros y Hy. by apply H, list_elem_of_further.
Qed.

(** Every answer with status 400 leaves the directory as it was. *)
Lemma POST_400_unchanged (env : Upload.Env) (d : Storage.Dir) (req : Upload.Request) :
  status (fst (Upload.POST env d req)) = 400 → snd (Upload.POST env d req) = d.
Proof.
  unfold Upload.POST.
  repeat match goal with
         | |- context [match ?x with _ => _ end] => destruct x eqn:?
         end; simpl; done.
Qed.

(** C1: what POST /api/upload refuses. A form without a 'file' field is
    answered 400 'No file received.'; a file of more than 10 MiB is answered
    400 'File too large. Max size is 10MB.'; a file whose declared type is
    not in the allow-list is answered 400, with 'File type not allowed.'
    (or with the size message when the file is also too large, the size
    being checked first). None of these answers writes to the Storage
    Directory, and no answer with status 400 does. *)
Theorem upload_rejections (env : Upload.Env) (d : Storage.Dir) :
  Upload.POST env d (Upload.FormData None)
    = ({| status := 400; body := ErrorBody "No file received." |}, d) ∧
  (∀ file : File.t,
     10 * Words.mebibyte < File.size file →
     Upload.POST env d (Upload.FormData (Some (Upload.FormFile file)))
       = ({| status := 400; body := ErrorBody "File too large. Max size is 10MB." |}, d)) ∧
  (∀ file : File.t,
     File.type file ∉ Words.allow_list →
     Upload.POST env d (Upload.FormData (Some (Upload.FormFile file)))
       = ({| status := 400;
             body := ErrorBody (if bool_decide (10 * Words.mebibyte < File.size file)
                                then "File too large. Max size is 10MB."
                                else "File type not allowed.") |}, d)) ∧
  (∀ req : Upload.Request,
     status (fst (Upload.POST env d req)) = 400 → snd (Upload.POST env d req) = d).
Proof.
  split; [done|]. split; [|split]; [| |apply POST_400_unchanged].
  - intros file Hsize. unfold Upload.POST.
    destruct (Z.gtb_spec (File.size file) Upload.maxSize) as [_|Hle]; [done|].
    unfold Upload.maxSize, Words.mebibyte in *. lia.
  - intros file Htype%includes_not_elem_of. unfold Upload.POST.
    change Words.allow_list with Upload.allowedTypes in Htype. rewrite Htype.
    destruct (Z.gtb_spec (File.size file) Upload.maxSize) as [Hgt|Hle];
      unfold Upload.maxSize, Words.mebibyte in *.
    + rewrite bool_decide_eq_true_2 by lia. done.
    + rewrite bool_decide_eq_false_2 by lia. done.
Qed.

Lemma upload_rejections_witness :
  Upload.POST (Upload.mkEnv Storage.no_faults "7c9e6679" 1700000000000 1699999999990) (Some [])
      (Upload.FormData (Some (Upload.FormFile
         (File.mk "film.png" (11 * 1024 * 1024) "image/png" []))))
    = ({| status := 400; body := ErrorBody "File too large. Max size is 10MB." |}, Some [])
  ∧
  Upload.POST (Upload.mkEnv Storage.no_faults "7c9e6679" 1700000000000 1699999999990) (Some [])
      (Upload.FormData (Some (Upload.FormFile
         (File.mk "a.zip" 3 "application/zip" [Byte.x50; Byte.x4b; Byte.x03]))))
    = ({| status := 400; body := ErrorBody "File type not allowed." |}, Some []).
Proof.
  pose proof (upload_rejections
                (Upload.mkEnv Storage.no_faults "7c9e6679" 1700000000000 1699999999990) (Some []))
    as (_ & Hsize & Htype & _).
  split.
  - apply Hsize. vm_compute. reflexivity.
  - apply (Htype (File.mk "a.zip" 3 "application/zip" [Byte.x50; Byte.x4b; Byte.x03])).
    apply includes_not_elem_of. vm_compute. reflexivity.
Defined.

Lemma mkdir_entries (fl : Storage.Faults) (d : Storage.Dir) :
  Words.entries (match Storage.mkdir fl d with
                 | Some d' => d'
                 | None => d
                 end) = Words.entries d.
Proof. unfold Storage.mkdir. by destruct (Storage.f_mkdir fl), d. Qed.

(** The handler on a file that passes the validation. *)
Lemma POST_valid (env : Upload.Env) (d : Storage.Dir) (file : File.t) :
  Terms.valid file →
  Upload.POST env d (Terms.upload_of file) =
    let d1 := match Storage.mkdir (Upload.faults env) d with
              | Some d' => d'
              | None => d
              end in
    let w := Storage.writeFile (Upload.faults env) d1 (Terms.stored_name env file)
               (File.content file) (Upload.created env) in
    if snd w then
      (json_ok {| Upload.id := Upload.uuid env;
                  Upload.filename := Terms.stored_name env file;
                  Upload.originalName := File.name file;
                  Upload.url := "/uploads/" +:+ Terms.stored_name env file;
                  Upload.size := File.size file;
                  Upload.type := File.type file;
                  Upload.uploadedAt := Upload.now env |}, fst w)
    else (json_error "Upload failed." 500, fst w).
Proof.
  intros [Hsize Htype%includes_elem_of]. unfold Terms.upload_of, Upload.POST.
  destruct (Z.gtb_spec (File.size file) Upload.maxSize) as [Hgt|_].
  { unfold Upload.maxSize, Words.mebibyte in *. lia. }
  change Words.allow_list with Upload.allowedTypes in Htype. rewrite Htype.
  cbn [negb]. rewrite storedName_final_segment.
  fold (Terms.stored_name env file). cbn zeta.
  by destruct (Storage.writeFile _ _ _ _ _) as [d2 []].
Qed.

(** The directory after a write that the operating system carries out. *)
Lemma writeFile_stored (env : Upload.Env) (d : Storage.Dir) (name : string)
    (data : list Byte.byte) :
  Words.can_store (Upload.faults env) d name →
  Storage.writeFile (Upload.faults env)
      (match Storage.mkdir (Upload.faults env) d with
       | Some d' => d'
       | None => d
       end) name data (Upload.created env)
    = (Some (Storage.put_entry (Storage.mkEntry name data (Upload.created env))
                               (Words.entries d)), true).
Proof.
  intros (Hname & Hw & Hm).
  assert (match Storage.mkdir (Upload.faults env) d with
          | Some d' => d'
          | None => d
          end = Some (Words.entries d)) as ->.
  { unfold Storage.mkdir. destruct d as [es|]; simpl.
    - by destruct (Storage.f_mkdir _).
    - by rewrite Hm. }
  unfold Storage.writeFile. by rewrite Hname, Hw.
Qed.

(** C5, amended: an upload that passes validation (a file of at most
    10 MiB whose declared type is in the allow-list) and whose write the
    operating system carries out. The endpoint takes its identifier from
    the UUID generator, without comparing it with the files already stored;
    it stores the content under [{id}.{extension}], the extension being the
    final '.'-separated segment of the original name, and answers 200 with
    exactly: the identifier, the stored name, the original name, the URL
    [/uploads/{stored name}], the size, the declared type and a time read
    after the write. When no file had the stored name before, the directory
    has gained exactly that one file, created at the time of the write. *)
Theorem upload_success (env : Upload.Env) (d : Storage.Dir) (file : File.t) :
  File.size file <= 10 * Words.mebibyte →
  File.type file ∈ Words.allow_list →
  let storedName :=
    Upload.uuid env +:+ "." +:+ Words.final_segment "." (File.name file) in
  Words.can_store (Upload.faults env) d storedName →
  ∃ es' : list Storage.Entry,
    Upload.POST env d (Upload.FormData (Some (Upload.FormFile file)))
      = ({| status := 200;
            body := Payload {| Upload.id := Upload.uuid env;
                               Upload.filename := storedName;
                               Upload.originalName := File.name file;
                               Upload.url := "/uploads/" +:+ storedName;
                               Upload.size := File.size file;
                               Upload.type := File.type file;
                               Upload.uploadedAt := Upload.now env |} |},
         Some es') ∧
    (∃ e, e ∈ es' ∧ Storage.e_name e = storedName ∧
          Storage.e_data e = File.content file) ∧
    ((∀ x, x ∈ Words.entries d → Storage.e_name x ≠ storedName) →
     es' = (Words.entries d ++
              [Storage.mkEntry storedName (File.content file)
                               (Upload.created env)])%list).
Proof.
  intros Hsize Htype storedName Hstore.
  change (Upload.FormData (Some (Upload.FormFile file))) with (Terms.upload_of file).
  rewrite (POST_valid env d file (conj Hsize Htype)). cbn zeta.
  fold storedName in Hstore |- *.
  change (Terms.stored_name env file) with storedName.
  rewrite (writeFile_stored env d storedName (File.content file) Hstore).
  cbn [fst snd].
  set (e := Storage.mkEntry storedName (File.content file) (Upload.created env)).
  exists (Storage.put_entry e (Words.entries d)). split; [done|]. split.
  - apply (put_entry_elem e).
  - apply (put_entry_fresh e).
Qed.

Lemma upload_success_witness :
  ∃ es' : list Storage.Entry,
    Upload.POST
      (Upload.mkEnv Storage.no_faults "3f2b8c1e-9d4a-4e6f-8a7b-1c2d3e4f5a6b"
                    1700000000000 1699999999990)
      None
      (Upload.FormData (Some (Upload.FormFile
         (File.mk "notes.v2.txt" 2 "text/plain" [Byte.x68; Byte.x69]))))
      = ({| status := 200;
            body := Payload
              {| Upload.id := "3f2b8c1e-9d4a-4e6f-8a7b-1c2d3e4f5a6b";
                 Upload.filename := "3f2b8c1e-9d4a-4e6f-8a7b-1c2d3e4f5a6b.txt";
                 Upload.originalName := "notes.v2.txt";
                 Upload.url := "/uploads/3f2b8c1e-9d4a-4e6f-8a7b-1c2d3e4f5a6b.txt";
                 Upload.size := 2;
                 Upload.type := "text/plain";
                 Upload.uploadedAt := 1700000000000 |} |},
         Some es') ∧
    es' = [Storage.mkEntry "3f2b8c1e-9d4a-4e6f-8a7b-1c2d3e4f5a6b.txt"
                           [Byte.x68; Byte.x69] 1699999999990].
Proof.
  destruct (upload_success
              (Upload.mkEnv Storage.no_faults "3f2b8c1e-9d4a-4e6f-8a7b-1c2d3e4f5a6b"
                            1700000000000 1699999999990)
              None
              (File.mk "notes.v2.txt" 2 "text/plain" [Byte.x68; Byte.x69]))
    as (es' & Hpost & _ & Hfresh).
  - vm_compute. discriminate.
  - apply includes_elem_of. vm_compute. reflexivity.
  - split; [vm_compute; reflexivity | split; [reflexivity | reflexivity]].
  - exists es'. split; [exact Hpost|].
    apply Hfresh. intros x Hx. inversion Hx.
Defined.

(** C5 as stated fails. The identifier is not checked against the stored
    files: when the generator gives the identifier of a file that is there,
    the answer is 200 with that identifier and the earlier content is
    replaced. And an upload that passes validation is not always stored:
    for the original name [a./b] the stored name has a path separator, the
    write is rejected and the answer is 500. *)
Lemma upload_not_fresh_nor_always_stored :
  Upload.POST
    (Upload.mkEnv Storage.no_faults "3f2b8c1e-9d4a-4e6f-8a7b-1c2d3e4f5a6b"
                  1700000000000 1699999999990)
    (Some [Storage.mkEntry "3f2b8c1e-9d4a-4e6f-8a7b-1c2d3e4f5a6b.png" [Byte.x61] 10])
    (Upload.FormData (Some (Upload.FormFile
       (File.mk "b.png" 2 "image/png" [Byte.x62; Byte.x63]))))
    = ({| status := 200;
          body := Payload
            {| Upload.id := "3f2b8c1e-9d4a-4e6f-8a7b-1c2d3e4f5a6b";
               Upload.filename := "3f2b8c1e-9d4a-4e6f-8a7b-1c2d3e4f5a6b.png";
               Upload.originalName := "b.png";
               Upload.url := "/uploads/3f2b8c1e-9d4a-4e6f-8a7b-1c2d3e4f5a6b.png";
               Upload.size := 2;
               Upload.type := "image/png";
               Upload.uploadedAt := 1700000000000 |} |},
       Some [Storage.mkEntry "3f2b8c1e-9d4a-4e6f-8a7b-1c2d3e4f5a6b.png"
                             [Byte.x62; Byte.x63] 10])
  ∧
  Upload.POST
    (Upload.mkEnv Storage.no_faults "3f2b8c1e-9d4a-4e6f-8a7b-1c2d3e4f5a6b"
                  1700000000000 1699999999990)
    (Some [])
    (Upload.FormData (Some (Upload.FormFile
       (File.mk "a./b" 2 "text/plain" [Byte.x68; Byte.x69]))))
    = ({| status := 500; body := ErrorBody "Upload failed." |}, Some []).
Proof. split; vm_compute; reflexivity. Qed.

(* ===================================================================== *)
(** ** DELETE /api/upload/[id] *)
(* ===================================================================== *)

Lemma startsWith_spec (s p : string) :
  JS.startsWith s p = true ↔ Words.starts_with s p.
Proof.
  unfold Words.starts_with. revert s.
  induction p as [|b p IH]; intros s; simpl.
  - split; [intros _; by exists s | done].
  - destruct s as [|a s]; simpl.
    + split; [done | intros [rest Hrest]; discriminate Hrest].
    + rewrite andb_true_iff, IH. split.
      * intros [->%Ascii.eqb_eq [rest ->]]. by exists rest.
      * intros [rest Hrest].
        change (String a s = String b (p +:+ rest)) in Hrest.
        injection Hrest as -> ->.
        split; [apply Ascii.eqb_refl | by exists rest].
Qed.

Section FirstMatch.
Variables (fileId : string) (pre post : list Storage.Entry) (e : Storage.Entry).
Hypothesis e_matches : Words.starts_with (Storage.e_name e) fileId.
Hypothesis pre_no_match :
  ∀ x, x ∈ pre → ¬ Words.starts_with (Storage.e_name x) fileId.

Lemma find_first_match :
  JS.find (λ file, JS.startsWith file fileId)
          (map Storage.e_name (pre ++ e :: post))
    = Some (Storage.e_name e).
Proof using e_matches pre_no_match.
  clear -e_matches pre_no_match.
  induction pre as [|x l IH]; simpl.
  - apply startsWith_spec in e_matches. by rewrite e_matches.
  - destruct (JS.startsWith (Storage.e_name x) fileId) eqn:Hx.
    + apply startsWith_spec in Hx.
      destruct (pre_no_match x); [apply list_elem_of_here | done].
    + apply IH. intros y Hy. by apply pre_no_match, list_elem_of_further.
Qed.

Lemma pre_other_names : ∀ x, x ∈ pre → Storage.e_name x ≠ Storage.e_name e.
Proof using e_matches pre_no_match.
  intros x Hx Heq. apply (pre_no_match x Hx). by rewrite Heq.
Qed.

Lemma lookup_first_match :
  Storage.lookup_entry (Storage.e_name e) (pre ++ e :: post) = Some e.
Proof using e_matches pre_no_match.
  pose proof pre_other_names as Hne. clear -Hne.
  unfold Storage.lookup_entry.
  induction pre as [|x l IH]; simpl.
  - by rewrite String.eqb_refl.
  - destruct (String.eqb_spec (Storage.e_name x) (Storage.e_name e)) as [Heq|_].
    + destruct (Hne x); [apply list_elem_of_here | done].
    + apply IH. intros y Hy. by apply Hne, list_elem_of_further.
Qed.

Lemma remove_first_match :
  Storage.remove_entry (Storage.e_name e) (pre ++ e :: post) = (pre ++ post)%list.
Proof using e_matches pre_no_match.
  pose proof pre_other_names as Hne. clear -Hne.
  induction pre as [|x l IH]; simpl.
  - by rewrite String.eqb_refl.
  - destruct (String.eqb_spec (Storage.e_name x) (Storage.e_name e)) as [Heq|_].
    + destruct (Hne x); [apply list_elem_of_here | done].
    + rewrite IH; [done|]. intros y Hy. by apply Hne, list_elem_of_further.
Qed.

(** The handler, once the scan has found [e]. *)
Lemma DELETE_found (fl : Storage.Faults) :
  Storage.f_readdir fl = false →
  Storage.e_name e ≠ EmptyString →
  Delete.DELETE fl (Some (pre ++ e :: post)%list) (Some fileId) =
    if Storage.f_unlink fl (Storage.e_name e)
    then (json_error "File not found or already deleted" 404,
          Some (pre ++ e :: post)%list)
    else (json_ok {| Delete.success := true;
                     Delete.message := "File deleted successfully" |},
          Some (pre ++ post)%list).
Proof using e_matches pre_no_match.
  intros Hr Hname. unfold Delete.DELETE, Storage.readdir. rewrite Hr.
  rewrite find_first_match.
  unfold JS.truthy. destruct (String.eqb_spec (Storage.e_name e) "") as [|_]; [done|].
  cbn [negb]. unfold Storage.unlink.
  destruct (Storage.f_unlink fl (Storage.e_name e)); [done|].
  by rewrite lookup_first_match, remove_first_match.
Qed.

End FirstMatch.

Lemma find_no_match (fileId : string) (es : list Storage.Entry) :
  (∀ x, x ∈ es → ¬ Words.starts_with (Storage.e_name x) fileId) →
  JS.find (λ file, JS.startsWith file fileId) (map Storage.e_name es) = None.
Proof.
  induction es as [|x es IH]; simpl; [done|]. intros H.
  destruct (JS.startsWith (Storage.e_name x) fileId) eqn:Hx.
  - apply startsWith_spec in Hx. destruct (H x); [apply list_elem_of_here | done].
  - apply IH. intros y Hy. by apply H, list_elem_of_further.
Qed.

Lemma DELETE_unreadable (fl : Storage.Faults) (d : Storage.Dir) (fileId : string) :
  d = None ∨ Storage.f_readdir fl = true →
  Delete.DELETE fl d (Some fileId)
    = (json_error "File not found or already deleted" 404, d).
Proof.
  intros H. unfold Delete.DELETE, Storage.readdir.
  destruct H as [->|H]; [done|]. rewrite H. by destruct d.
Qed.

(** C3: DELETE /api/upload/{id} scans the Storage Directory for the first
    entry whose file name starts with the identifier. When there is one (and
    the operating system carries out the removal), that file is removed and
    the answer is the success message; when no entry matches, or the
    directory does not exist or cannot be read, the answer is 404 and the
    directory is left as it was. *)
Theorem delete_first_match (fl : Storage.Faults) (d : Storage.Dir) (fileId : string) :
  (∀ (pre post : list Storage.Entry) (e : Storage.Entry),
     d = Some (pre ++ e :: post)%list →
     Words.starts_with (Storage.e_name e) fileId →
     (∀ x, x ∈ pre → ¬ Words.starts_with (Storage.e_name x) fileId) →
     Storage.f_readdir fl = false →
     Storage.e_name e ≠ EmptyString →
     Storage.f_unlink fl (Storage.e_name e) = false →
     Delete.DELETE fl d (Some fileId)
       = ({| status := 200;
             body := Payload {| Delete.success := true;
                                Delete.message := "File deleted successfully" |} |},
          Some (pre ++ post)%list)) ∧
  ((∀ x, x ∈ Words.entries d → ¬ Words.starts_with (Storage.e_name x) fileId) →
   ∃ msg, Delete.DELETE fl d (Some fileId)
            = ({| status := 404; body := ErrorBody msg |}, d)) ∧
  (d = None ∨ Storage.f_readdir fl = true →
   ∃ msg, Delete.DELETE fl d (Some fileId)
            = ({| status := 404; body := ErrorBody msg |}, d)).
Proof.
  split; [|split].
  - intros pre post e -> He Hpre Hr Hname Hu.
    rewrite (DELETE_found fileId pre post e He Hpre fl Hr Hname), Hu. done.
  - intros Hnone. destruct d as [es|]; [|by eexists].
    unfold Delete.DELETE, Storage.readdir.
    destruct (Storage.f_readdir fl); [by eexists|].
    rewrite find_no_match by done. by eexists.
  - intros H. rewrite DELETE_unreadable by done. by eexists.
Qed.

Lemma delete_first_match_witness :
  Delete.DELETE Storage.no_faults
      (Some [ Storage.mkEntry "11aa.png" [] 10;
              Storage.mkEntry "22bb.txt" [] 20;
              Storage.mkEntry "22bc.txt" [] 30 ])
      (Some "22b")
    = ({| status := 200;
          body := Payload {| Delete.success := true;
                             Delete.message := "File deleted successfully" |} |},
       Some [ Storage.mkEntry "11aa.png" [] 10;
              Storage.mkEntry "22bc.txt" [] 30 ])
  ∧ (∃ msg, Delete.DELETE Storage.no_faults
              (Some [ Storage.mkEntry "11aa.png" [] 10 ]) (Some "22b")
            = ({| status := 404; body := ErrorBody msg |},
               Some [ Storage.mkEntry "11aa.png" [] 10 ]))
  ∧ (∃ msg, Delete.DELETE Storage.no_faults None (Some "22b")
            = ({| status := 404; body := ErrorBody msg |}, None)).
Proof.
  split; [|split].
  - apply (proj1 (delete_first_match Storage.no_faults _ "22b")
             [ Storage.mkEntry "11aa.png" [] 10 ]
             [ Storage.mkEntry "22bc.txt" [] 30 ]
             (Storage.mkEntry "22bb.txt" [] 20)).
    + reflexivity.
    + exists "b.txt". reflexivity.
    + intros x [<-|[]]%list_elem_of_In. intros Hx%startsWith_spec. discriminate Hx.
    + reflexivity.
    + discriminate.
    + reflexivity.
  - apply (proj1 (proj2 (delete_first_match Storage.no_faults
                           (Some [ Storage.mkEntry "11aa.png" [] 10 ]) "22b"))).
    intros x [<-|[]]%list_elem_of_In. intros Hx%startsWith_spec. discriminate Hx.
  - apply (proj2 (proj2 (delete_first_match Storage.no_faults None "22b"))).
    left. reflexivity.
Defined.

(** C9: on a directory that is not empty, a DELETE whose identifier is the
    empty string matches the first entry of the listing, since every file
    name starts with the empty string; that file is removed and the answer
    is the success message (the directory being readable and the operating
    system carrying out the removal). *)
Theorem delete_empty_identifier (fl : Storage.Faults) (e : Storage.Entry)
    (es : list Storage.Entry) :
  Storage.f_readdir fl = false →
  Storage.e_name e ≠ EmptyString →
  Storage.f_unlink fl (Storage.e_name e) = false →
  JS.find (λ file, JS.startsWith file EmptyString) (map Storage.e_name (e :: es))
    = Some (Storage.e_name e) ∧
  Delete.DELETE fl (Some (e :: es)) (Some EmptyString)
    = ({| status := 200;
          body := Payload {| Delete.success := true;
                             Delete.message := "File deleted successfully" |} |},
       Some es).
Proof.
  intros Hr Hname Hu. split; [done|].
  assert (Words.starts_with (Storage.e_name e) "") as He by by eexists.
  assert (∀ x, x ∈ [] → ¬ Words.starts_with (Storage.e_name x) "") as Hpre
    by by intros x ?%elem_of_nil.
  pose proof (DELETE_found "" [] es e He Hpre fl Hr Hname) as H.
  rewrite Hu in H. exact H.
Qed.

Lemma delete_empty_identifier_witness :
  JS.find (λ file, JS.startsWith file EmptyString) ["11aa.png"; "22bb.txt"]
    = Some "11aa.png" ∧
  Delete.DELETE Storage.no_faults
      (Some [ Storage.mkEntry "11aa.png" [] 10; Storage.mkEntry "22bb.txt" [] 20 ])
      (Some EmptyString)
    = ({| status := 200;
          body := Payload {| Delete.success := true;
                             Delete.message := "File deleted successfully" |} |},
       Some [ Storage.mkEntry "22bb.txt" [] 20 ]).
Proof.
  apply (delete_empty_identifier Storage.no_faults
           (Storage.mkEntry "11aa.png" [] 10) [ Storage.mkEntry "22bb.txt" [] 20 ]).
  - reflexivity.
  - discriminate.
  - reflexivity.
Defined.

(** C7, amended: when the scan finds a matching entry and its removal
    fails, the Delete Endpoint answers 404 'File not found or already
    deleted', not 500, and leaves the directory as it was. *)
Theorem delete_failure_statuses (fl : Storage.Faults) (fileId : string)
    (pre post : list Storage.Entry) (e : Storage.Entry) :
  Words.starts_with (Storage.e_name e) fileId →
  (∀ x, x ∈ pre → ¬ Words.starts_with (Storage.e_name x) fileId) →
  Storage.f_readdir fl = false →
  Storage.e_name e ≠ EmptyString →
  Storage.f_unlink fl (Storage.e_name e) = true →
  Delete.DELETE fl (Some (pre ++ e :: post)%list) (Some fileId)
    = ({| status := 404; body := ErrorBody "File not found or already deleted" |},
       Some (pre ++ e :: post)%list).
Proof.
  intros He Hpre Hr Hname Hu.
  rewrite (DELETE_found fileId pre post e He Hpre fl Hr Hname), Hu. done.
Qed.

Lemma delete_failure_statuses_witness :
  Delete.DELETE (Storage.mkFaults false false (λ _, Storage.WriteOk) (λ _, false) (λ _, true))
      (Some [ Storage.mkEntry "11aa.png" [] 10; Storage.mkEntry "22bb.txt" [] 20 ])
      (Some "22bb")
    = ({| status := 404; body := ErrorBody "File not found or already deleted" |},
       Some [ Storage.mkEntry "11aa.png" [] 10; Storage.mkEntry "22bb.txt" [] 20 ]).
Proof.
  apply (delete_failure_statuses
           (Storage.mkFaults false false (λ _, Storage.WriteOk) (λ _, false) (λ _, true))
           "22bb" [ Storage.mkEntry "11aa.png" [] 10 ] []
           (Storage.mkEntry "22bb.txt" [] 20)).
  - exists ".txt". reflexivity.
  - intros x [<-|[]]%list_elem_of_In. intros Hx%startsWith_spec. discriminate Hx.
  - reflexivity.
  - discriminate.
  - reflexivity.
Defined.

(** A throw in front of the scan, of [process.cwd()] as well as of the
    route parameters, is answered 500 'Delete failed.' with the directory
    untouched; once the scan is reached the handler is [DELETE] on the
    identifier. *)
Lemma route_before_scan (fl : Storage.Faults) (d : Storage.Dir) (id : string) :
  Delete.route fl d Delete.ParamsRejected
    = ({| status := 500; body := ErrorBody "Delete failed." |}, d) ∧
  Delete.route fl d (Delete.CwdThrew id)
    = ({| status := 500; body := ErrorBody "Delete failed." |}, d) ∧
  Delete.route fl d (Delete.Arrived id) = Delete.DELETE fl d (Some id).
Proof. done. Qed.

(** C7 as stated fails: a matching entry is found, its removal is refused,
    and the answer is 404, not 500. *)
Lemma delete_removal_failure_not_500 :
  Delete.DELETE (Storage.mkFaults false false (λ _, Storage.WriteOk) (λ _, false) (λ _, true))
      (Some [ Storage.mkEntry "22bb.txt" [] 20 ]) (Some "22bb")
    = ({| status := 404; body := ErrorBody "File not found or already deleted" |},
       Some [ Storage.mkEntry "22bb.txt" [] 20 ])
  ∧ status (fst (Delete.DELETE
                   (Storage.mkFaults false false (λ _, Storage.WriteOk) (λ _, false) (λ _, true))
                   (Some [ Storage.mkEntry "22bb.txt" [] 20 ]) (Some "22bb"))) ≠ 500.
Proof. split; [reflexivity | vm_compute; discriminate]. Qed.

(* ===================================================================== *)
(** ** The upload widgets *)
(* ===================================================================== *)

Lemma upload_one_failed (now : Z) (file : File.t) (o : Widget.Fetched)
    (s : Widget.State) :
  Words.failed o →
  ∃ msg, JS.truthy msg = true ∧
    Widget.upload_one now file o s
      = Widget.set_status (File.name file)
          (Widget.mkUploadStatus Widget.error 0 (Some msg)) s.
Proof.
  intros Hf. destruct o as [|[result|]|[[[m|]]|]]; simpl.
  - by exists "Upload failed".
  - by destruct (Hf result).
  - by exists "Upload failed".
  - unfold Widget.or_upload_failed. destruct (JS.truthy m) eqn:Hm.
    + by exists m.
    + by exists "Upload failed".
  - by exists "Upload failed".
  - by exists "Upload failed".
Qed.

Lemma fire_other_name (i : nat) (s : Widget.State) (delay : Z) (name other : string) :
  Widget.timers s !! i = Some (delay, other) → other ≠ name →
  Widget.uploadStatuses (Widget.fire i s) !! name = Widget.uploadStatuses s !! name.
Proof.
  intros Hi Hne. unfold Widget.fire. rewrite Hi. simpl.
  by rewrite lookup_delete_ne.
Qed.

Lemma fire_uploadedFiles (i : nat) (s : Widget.State) :
  Widget.uploadedFiles (Widget.fire i s) = Widget.uploadedFiles s.
Proof. unfold Widget.fire. by destruct (Widget.timers s !! i) as [[]|]. Qed.

Lemma fires_uploadedFiles (fired : list nat) (s : Widget.State) :
  Widget.uploadedFiles (foldl (λ s' i, Widget.fire i s') s fired)
    = Widget.uploadedFiles s.
Proof.
  revert s. induction fired as [|i fired IH]; intros s; [done|].
  cbn [foldl]. by rewrite IH, fire_uploadedFiles.
Qed.

(** After a drop the displayed list starts with the descriptors of the
    uploads that completed, the last one first, followed by what was
    displayed before. *)
Lemma onDrop_files (turns : list Widget.Turn) (s : Widget.State) :
  Widget.uploadedFiles (Widget.onDrop turns s)
    = (rev (Words.completed turns) ++ Widget.uploadedFiles s)%list.
Proof.
  unfold Widget.onDrop.
  change (Widget.uploadedFiles s)
    with (Widget.uploadedFiles (Widget.begin_drop (map Widget.t_file turns) s)).
  generalize (Widget.begin_drop (map Widget.t_file turns) s) as s0.
  induction turns as [|[file fired o now] turns IH]; intros s0; [done|].
  cbn [foldl]. rewrite IH. unfold Widget.turn.
  cbn [Widget.t_file Widget.t_fired Widget.t_outcome Widget.t_now].
  destruct o as [|[result|]|errorData];
    cbn [Widget.upload_one Widget.set_status Widget.uploadedFiles];
    rewrite fires_uploadedFiles; try done.
  change (Words.completed (Widget.mkTurn file fired (Widget.Ok (Some result)) now :: turns))
    with (Words.descriptor now file result :: Words.completed turns).
  cbn [rev]. by rewrite <- app_assoc.
Qed.

(** In the [XMLHttpRequest]-based widget a request that ends otherwise than
    with status 200 changes neither the list nor the progress entries. *)
Lemma xhr_other_outcomes_ignored (now : Z) (file : File.t) (s : WidgetXhr.State)
    (code : Z) (response : option WidgetXhr.ResponseJson) :
  code ≠ 200 →
  WidgetXhr.on_event now file (WidgetXhr.Load code response) s = s ∧
  WidgetXhr.on_event now file WidgetXhr.Failed s = s.
Proof.
  intros Hcode. split; [|done]. simpl. by destruct (Z.eqb_spec code 200).
Qed.

(** Statuses are keyed by file name. When an upload completes and a later
    upload of a file with the same name fails, the callback scheduled by the
    first one removes the error entry of the second. *)
Lemma same_name_callback_clears_error (now : Z) (file : File.t)
    (result : Widget.UploadJson) (o : Widget.Fetched) (s : Widget.State) :
  Words.failed o →
  let s1 := Widget.upload_one now file (Widget.Ok (Some result)) s in
  let s2 := Widget.upload_one now file o s1 in
  Widget.uploadStatuses (Widget.fire (length (Widget.timers s)) s2) !! File.name file
    = None.
Proof.
  intros Hf s1 s2. subst s2.
  destruct (upload_one_failed now file o s1 Hf) as (msg & _ & ->).
  subst s1. unfold Widget.fire.
  cbn [Widget.upload_one Widget.set_status Widget.timers].
  rewrite list_lookup_middle by done.
  cbn [Widget.uploadStatuses]. apply lookup_delete_eq.
Qed.

(** C8, amended. In the [fetch]-based widget: a completed upload puts the
    new descriptor at the head of the displayed list, sets the file's status
    to success, and schedules with the fixed delay of 2000 ms a callback
    that removes the status entry and leaves the list alone; a failed upload
    sets the status to error with a non-empty message, changes neither the
    list nor the scheduled callbacks, and the entry outlives every callback
    scheduled for another file name. In the [XMLHttpRequest]-based widget a
    completed upload (status 200) puts the new descriptor at the end of the
    list and removes the file's progress entry, no status being kept. *)
Theorem widget_upload_outcomes (now : Z) (file : File.t) :
  (∀ (s : Widget.State) (result : Widget.UploadJson),
     let s' := Widget.upload_one now file (Widget.Ok (Some result)) s in
     Widget.uploadedFiles s'
       = Words.descriptor now file result :: Widget.uploadedFiles s ∧
     Widget.uploadStatuses s' !! File.name file
       = Some (Widget.mkUploadStatus Widget.success 100 (Some "Upload complete!")) ∧
     Widget.timers s' = (Widget.timers s ++ [(2000, File.name file)])%list ∧
     let s'' := Widget.fire (length (Widget.timers s)) s' in
     Widget.uploadStatuses s'' !! File.name file = None ∧
     Widget.uploadedFiles s'' = Widget.uploadedFiles s' ∧
     Widget.timers s'' = Widget.timers s) ∧
  (∀ (s : Widget.State) (o : Widget.Fetched),
     Words.failed o →
     let s' := Widget.upload_one now file o s in
     (∃ msg, JS.truthy msg = true ∧
        Widget.uploadStatuses s' !! File.name file
          = Some (Widget.mkUploadStatus Widget.error 0 (Some msg))) ∧
     Widget.uploadedFiles s' = Widget.uploadedFiles s ∧
     Widget.timers s' = Widget.timers s ∧
     (∀ (i : nat) (delay : Z) (other : string),
        Widget.timers s' !! i = Some (delay, other) → other ≠ File.name file →
        Widget.uploadStatuses (Widget.fire i s') !! File.name file
          = Widget.uploadStatuses s' !! File.name file)) ∧
  (∀ (s : WidgetXhr.State) (r : WidgetXhr.ResponseJson),
     WidgetXhr.on_event now file (WidgetXhr.Load 200 (Some r)) s
       = {| WidgetXhr.files :=
              (WidgetXhr.files s ++
                 [ {| WidgetXhr.id := WidgetXhr.r_id r;
                      WidgetXhr.name := File.name file;
                      WidgetXhr.size := File.size file;
                      WidgetXhr.type := File.type file;
                      WidgetXhr.url := WidgetXhr.r_url r;
                      WidgetXhr.uploadedAt := now |} ])%list;
            WidgetXhr.uploadProgress :=
              delete (File.name file) (WidgetXhr.uploadProgress s) |}).
Proof.
  split; [|split].
  - intros s result s'. subst s'. cbn [Widget.upload_one Widget.set_status
      Widget.uploadedFiles Widget.uploadStatuses Widget.timers].
    split; [done|]. split; [apply lookup_insert_eq|]. split; [done|].
    unfold Widget.fire. cbn [Widget.timers].
    rewrite list_lookup_middle by done.
    cbn [Widget.uploadedFiles Widget.uploadStatuses Widget.timers].
    split; [apply lookup_delete_eq|]. split; [done|].
    rewrite delete_middle. apply app_nil_r.
  - intros s o Hf s'. subst s'.
    destruct (upload_one_failed now file o s Hf) as (msg & Hmsg & ->).
    cbn [Widget.set_status Widget.uploadedFiles Widget.uploadStatuses Widget.timers].
    split; [|split; [done|split; [done|]]].
    + exists msg. split; [done | apply lookup_insert_eq].
    + intros i delay other Hi Hne.
      by rewrite (fire_other_name i _ delay (File.name file) other).
  - done.
Qed.

Lemma widget_upload_outcomes_witness :
  (∃ msg, JS.truthy msg = true ∧
     Widget.uploadStatuses
       (Widget.upload_one 1700000000000
          (File.mk "film.png" (11 * 1024 * 1024) "image/png" [])
          (Widget.NotOk (Some (Widget.mkErrorJson
                                 (Some "File too large. Max size is 10MB."))))
          (Widget.mkState [] ∅ []))
       !! "film.png"
     = Some (Widget.mkUploadStatus Widget.error 0 (Some msg))) ∧
  Widget.timers
    (Widget.upload_one 1700000000000
       (File.mk "film.png" (11 * 1024 * 1024) "image/png" [])
       (Widget.NotOk (Some (Widget.mkErrorJson
                              (Some "File too large. Max size is 10MB."))))
       (Widget.mkState [] ∅ []))
    = [].
Proof.
  destruct (widget_upload_outcomes 1700000000000
              (File.mk "film.png" (11 * 1024 * 1024) "image/png" []))
    as (_ & Hfailed & _).
  destruct (Hfailed (Widget.mkState [] ∅ [])
              (Widget.NotOk (Some (Widget.mkErrorJson
                                     (Some "File too large. Max size is 10MB.")))))
    as (Hstatus & _ & Htimers & _).
  - intros result. discriminate.
  - split; [exact Hstatus | exact Htimers].
Defined.

(** C8 as stated fails in the [XMLHttpRequest]-based widget: with one file
    already displayed, the descriptor of a completed upload comes after it,
    not at the head of the list. *)
Lemma xhr_upload_lands_at_tail :
  WidgetXhr.files
    (WidgetXhr.on_event 20 (File.mk "b.png" 2 "image/png" [Byte.x62; Byte.x63])
       (WidgetXhr.Load 200 (Some (WidgetXhr.mkResponseJson "22bb" "/uploads/22bb.png")))
       (WidgetXhr.mkState
          [WidgetXhr.mkUploadedFile "11aa" "a.txt" 1 "text/plain" "/uploads/11aa.txt" 10]
          ∅))
    = [ WidgetXhr.mkUploadedFile "11aa" "a.txt" 1 "text/plain" "/uploads/11aa.txt" 10;
        WidgetXhr.mkUploadedFile "22bb" "b.png" 2 "image/png" "/uploads/22bb.png" 20 ]
  ∧
  head (WidgetXhr.files
    (WidgetXhr.on_event 20 (File.mk "b.png" 2 "image/png" [Byte.x62; Byte.x63])
       (WidgetXhr.Load 200 (Some (WidgetXhr.mkResponseJson "22bb" "/uploads/22bb.png")))
       (WidgetXhr.mkState
          [WidgetXhr.mkUploadedFile "11aa" "a.txt" 1 "text/plain" "/uploads/11aa.txt" 10]
          ∅)))
    ≠ Some (WidgetXhr.mkUploadedFile "22bb" "b.png" 2 "image/png" "/uploads/22bb.png" 20).
Proof. split; [reflexivity | simpl; discriminate]. Qed.


(* ===================================================================== *)
(** ** Further properties of the routes *)
(* ===================================================================== *)

Lemma final_segment_no_char' (c : ascii) (s : string) :
  Words.has_char c (Words.final_segment c s) = false.
Proof.
  induction s as [|a s IH]; [done|]. cbn [Words.final_segment].
  destruct (Words.has_char c s) eqn:Hs; [done|].
  destruct (Ascii.eqb a c) eqn:Ha; [done|].
  cbn [Words.has_char]. by rewrite Ha, Hs.
Qed.

Lemma split_app_sep (c : ascii) (a b : string) :
  JS.split c (a +:+ String c b) = (JS.split c a ++ JS.split c b)%list.
Proof.
  induction a as [|x a IH].
  - change (JS.split c (String c b) = (EmptyString :: JS.split c b)).
    cbn [JS.split]. by rewrite Ascii.eqb_refl.
  - change (JS.split c (String x (a +:+ String c b))
            = (JS.split c (String x a) ++ JS.split c b)%list).
    cbn [JS.split]. rewrite IH.
    destruct (Ascii.eqb x c); [done|].
    by destruct (split_cons c a) as (p & ps & ->).
Qed.

Lemma pop_app_last {A : Type} (l : list A) (x : A) :
  JS.pop (l ++ [x])%list = (l, Some x).
Proof.
  induction l as [|a l IH]; [done|].
  destruct l as [|b l]; [done|].
  change ((a :: b :: l) ++ [x])%list with (a :: b :: (l ++ [x])%list).
  rewrite pop_cons2. change (b :: (l ++ [x])%list) with ((b :: l) ++ [x])%list.
  by rewrite IH.
Qed.

(** X1: the List Endpoint's decomposition undoes the Upload Endpoint's
    naming. Whatever the identifier and the original name are, the stored
    name decomposes into that identifier and the final '.'-separated
    segment of the original name. *)
Theorem decompose_storedName (fileId name : string) :
  Files.decompose (Upload.storedName fileId name)
    = (fileId, Some (Words.final_segment "." name)).
Proof.
  rewrite storedName_final_segment. unfold Files.decompose.
  change (fileId +:+ "." +:+ Words.final_segment "." name)
    with (fileId +:+ String "." (Words.final_segment "." name)).
  rewrite split_app_sep.
  rewrite (split_no_char "." (Words.final_segment "." name))
    by apply final_segment_no_char'.
  rewrite pop_app_last. by rewrite join_split.
Qed.

Lemma writeFile_resolved (fl : Storage.Faults) (d : Storage.Dir) (name : string)
    (data : list Byte.byte) (created : Z) :
  snd (Storage.writeFile fl d name data created) = true →
  ∃ es, d = Some es ∧
    fst (Storage.writeFile fl d name data created)
      = Some (Storage.put_entry (Storage.mkEntry name data created) es).
Proof.
  unfold Storage.writeFile. destruct d as [es|]; [|done].
  destruct (negb (Storage.child_name name)); [done|].
  destruct (Storage.f_writeFile fl name); try done. intros _. by exists es.
Qed.

Lemma lookup_put_other (name : string) (e : Storage.Entry) (es : list Storage.Entry) :
  name ≠ Storage.e_name e →
  Storage.lookup_entry name (Storage.put_entry e es) = Storage.lookup_entry name es.
Proof.
  intros Hne. unfold Storage.lookup_entry.
  induction es as [|x es IH]; simpl.
  - by destruct (String.eqb_spec (Storage.e_name e) name).
  - destruct (String.eqb_spec (Storage.e_name x) (Storage.e_name e)) as [Heq|Hx]; simpl.
    + destruct (String.eqb_spec (Storage.e_name e) name) as [|_]; [congruence|].
      destruct (String.eqb_spec (Storage.e_name x) name) as [|_]; [congruence|done].
    + by rewrite IH.
Qed.

Lemma writeFile_other_names (fl : Storage.Faults) (d : Storage.Dir) (name other : string)
    (data : list Byte.byte) (created : Z) :
  other ≠ name →
  Storage.lookup_entry other
      (Words.entries (fst (Storage.writeFile fl d name data created)))
    = Storage.lookup_entry other (Words.entries d).
Proof.
  intros Hne. unfold Storage.writeFile. destruct d as [es|]; [|done].
  destruct (negb (Storage.child_name name)); [done|].
  destruct (Storage.f_writeFile fl name); cbn [fst Words.entries];
    [|done|]; by apply lookup_put_other.
Qed.

(** X2: POST /api/upload answers 200 only to a form whose 'file' field is
    a file of at most 10 MiB with a declared type of the allow-list, and
    then the directory holds that file's content under the stored name. *)
Theorem upload_stores_only_valid (env : Upload.Env) (d : Storage.Dir)
    (req : Upload.Request) :
  status (fst (Upload.POST env d req)) = 200 →
  ∃ file, req = Terms.upload_of file ∧ Terms.valid file ∧
    ∃ e, e ∈ Words.entries (snd (Upload.POST env d req)) ∧
         Storage.e_name e = Terms.stored_name env file ∧
         Storage.e_data e = File.content file.
Proof.
  destruct req as [|[[s|file]|]];
    cbn -[JS.includes Upload.storedName Storage.writeFile Storage.mkdir Z.gtb];
    try done.
  { by destruct (negb (JS.truthy s)). }
  destruct (Z.gtb_spec (File.size file) Upload.maxSize) as [|Hle]; [done|].
  destruct (JS.includes Upload.allowedTypes (File.type file)) eqn:Htype; [|done].
  assert (Terms.valid file) as Hvalid.
  { split; [unfold Upload.maxSize, Words.mebibyte in *; lia|].
    by apply includes_elem_of. }
  cbn [negb]. rewrite storedName_final_segment.
  fold (Terms.stored_name env file).
  pose proof (writeFile_resolved (Upload.faults env)
                (match Storage.mkdir (Upload.faults env) d with
                 | Some d' => d'
                 | None => d
                 end)
                (Terms.stored_name env file) (File.content file)
                (Upload.created env)) as Hw.
  destruct (Storage.writeFile _ _ _ _ _) as [d2 []]; [|done].
  intros _. exists file. split; [done|]. split; [done|].
  destruct Hw as (es & _ & Hd2); [done|]. cbn [fst snd] in *. subst d2.
  apply (put_entry_elem
           (Storage.mkEntry (Terms.stored_name env file) (File.content file)
                            (Upload.created env))).
Qed.

Lemma upload_stores_only_valid_witness :
  ∃ file, Terms.upload_of (File.mk "notes.v2.txt" 2 "text/plain" [Byte.x68; Byte.x69])
            = Terms.upload_of file ∧ Terms.valid file ∧
    ∃ e, e ∈ Words.entries
               (snd (Upload.POST
                       (Upload.mkEnv Storage.no_faults "7c9e6679" 1700000000000 1699999999990)
                       (Some [Storage.mkEntry "11aa.png" [] 10])
                       (Terms.upload_of
                          (File.mk "notes.v2.txt" 2 "text/plain" [Byte.x68; Byte.x69])))) ∧
         Storage.e_name e
           = Terms.stored_name
               (Upload.mkEnv Storage.no_faults "7c9e6679" 1700000000000 1699999999990) file ∧
         Storage.e_data e = File.content file.
Proof.
  apply (upload_stores_only_valid
           (Upload.mkEnv Storage.no_faults "7c9e6679" 1700000000000 1699999999990)
           (Some [Storage.mkEntry "11aa.png" [] 10])).
  reflexivity.
Defined.

(** X3: an answer of POST /api/upload other than 200 is a 400 or a 500. A
    400 leaves the Storage Directory as it was. After a 500 every file
    stored under a name other than the upload's stored name is as it was:
    a failed upload can leave behind, or empty, only the file under its
    own stored name. *)
Theorem upload_failure_spares_other_files (env : Upload.Env) (d : Storage.Dir)
    (req : Upload.Request) :
  status (fst (Upload.POST env d req)) ≠ 200 →
  (status (fst (Upload.POST env d req)) = 400 ∨
   status (fst (Upload.POST env d req)) = 500) ∧
  (status (fst (Upload.POST env d req)) = 400 →
   snd (Upload.POST env d req) = d) ∧
  (∀ name,
     (∀ file, req = Terms.upload_of file → name ≠ Terms.stored_name env file) →
     Storage.lookup_entry name (Words.entries (snd (Upload.POST env d req)))
       = Storage.lookup_entry name (Words.entries d)).
Proof.
  intros Hst. split; [|split; [apply POST_400_unchanged|]].
  - revert Hst. destruct req as [|[[s|file]|]];
      cbn -[JS.includes Upload.storedName Storage.writeFile Storage.mkdir Z.gtb];
      try (by auto).
    { destruct (negb (JS.truthy s)); by auto. }
    destruct (File.size file >? Upload.maxSize); [by auto|].
    destruct (negb (JS.includes Upload.allowedTypes (File.type file))); [by auto|].
    destruct (Storage.writeFile _ _ _ _ _) as [d2 []]; simpl; by auto.
  - intros name Hname. destruct req as [|[[s|file]|]];
      cbn -[JS.includes Upload.storedName Storage.writeFile Storage.mkdir Z.gtb];
      try done.
    { by destruct (negb (JS.truthy s)). }
    destruct (File.size file >? Upload.maxSize); [done|].
    destruct (negb (JS.includes Upload.allowedTypes (File.type file))); [done|].
    specialize (Hname file eq_refl). unfold Terms.stored_name in Hname.
    rewrite <- storedName_final_segment in Hname.
    pose proof (writeFile_other_names (Upload.faults env)
                  (match Storage.mkdir (Upload.faults env) d with
                   | Some d' => d'
                   | None => d
                   end)
                  (Upload.storedName (Upload.uuid env) (File.name file)) name
                  (File.content file) (Upload.created env) Hname) as Hw.
    rewrite mkdir_entries in Hw.
    by destruct (Storage.writeFile _ _ _ _ _) as [d2 []].
Qed.

Lemma upload_failure_spares_other_files_witness :
  (status (fst (Upload.POST
                  (Upload.mkEnv
                     (Storage.mkFaults false false (λ _, Storage.WriteCut 0)
                                       (λ _, false) (λ _, false))
                     "7c9e6679" 1700000000000 1699999999990)
                  (Some [Storage.mkEntry "11aa.png" [Byte.x61] 10])
                  (Terms.upload_of (File.mk "a.txt" 1 "text/plain" [Byte.x61])))) = 400 ∨
   status (fst (Upload.POST
                  (Upload.mkEnv
                     (Storage.mkFaults false false (λ _, Storage.WriteCut 0)
                                       (λ _, false) (λ _, false))
                     "7c9e6679" 1700000000000 1699999999990)
                  (Some [Storage.mkEntry "11aa.png" [Byte.x61] 10])
                  (Terms.upload_of (File.mk "a.txt" 1 "text/plain" [Byte.x61])))) = 500) ∧
  Storage.lookup_entry "11aa.png"
    (Words.entries
       (snd (Upload.POST
               (Upload.mkEnv
                  (Storage.mkFaults false false (λ _, Storage.WriteCut 0)
                                    (λ _, false) (λ _, false))
                  "7c9e6679" 1700000000000 1699999999990)
               (Some [Storage.mkEntry "11aa.png" [Byte.x61] 10])
               (Terms.upload_of (File.mk "a.txt" 1 "text/plain" [Byte.x61])))))
    = Storage.lookup_entry "11aa.png"
        (Words.entries (Some [Storage.mkEntry "11aa.png" [Byte.x61] 10])).
Proof.
  destruct (upload_failure_spares_other_files
              (Upload.mkEnv
                 (Storage.mkFaults false false (λ _, Storage.WriteCut 0)
                                   (λ _, false) (λ _, false))
                 "7c9e6679" 1700000000000 1699999999990)
              (Some [Storage.mkEntry "11aa.png" [Byte.x61] 10])
              (Terms.upload_of (File.mk "a.txt" 1 "text/plain" [Byte.x61])))
    as (Hst & _ & Hother).
  - vm_compute. discriminate.
  - split; [exact Hst|]. apply Hother.
    intros file [= <-]. vm_compute. discriminate.
Defined.

(** X4: a valid file whose write fails. When the write is refused before
    the file is opened (the stored name has a path separator, the
    operating system refuses, or the missing directory cannot be created),
    POST /api/upload answers 500 'Upload failed.' and the directory holds
    the same files as before. When the write fails after the file was
    opened, the answer is the same 500, and the file stays behind under the
    stored name with the bytes written so far: nothing is cleaned up. *)
Theorem upload_write_refused (env : Upload.Env) (d : Storage.Dir) (file : File.t) :
  Terms.valid file →
  (Storage.child_name (Terms.stored_name env file) = false ∨
   Storage.f_writeFile (Upload.faults env) (Terms.stored_name env file)
     = Storage.WriteRefused ∨
   (d = None ∧ Storage.f_mkdir (Upload.faults env) = true) →
   Upload.POST env d (Terms.upload_of file)
     = ({| status := 500; body := ErrorBody "Upload failed." |},
        match Storage.mkdir (Upload.faults env) d with
        | Some d' => d'
        | None => d
        end) ∧
   Words.entries (snd (Upload.POST env d (Terms.upload_of file))) = Words.entries d) ∧
  (∀ written : nat,
     Storage.child_name (Terms.stored_name env file) = true →
     Storage.f_writeFile (Upload.faults env) (Terms.stored_name env file)
       = Storage.WriteCut written →
     (d = None → Storage.f_mkdir (Upload.faults env) = false) →
     fst (Upload.POST env d (Terms.upload_of file))
       = {| status := 500; body := ErrorBody "Upload failed." |} ∧
     ∃ e, e ∈ Words.entries (snd (Upload.POST env d (Terms.upload_of file))) ∧
          Storage.e_name e = Terms.stored_name env file ∧
          Storage.e_data e = take written (File.content file)).
Proof.
  intros Hvalid. rewrite (POST_valid env d file Hvalid). cbn zeta.
  pose proof (mkdir_entries (Upload.faults env) d) as Hm.
  split.
  - intros Hrefused.
    assert (Storage.writeFile (Upload.faults env)
              (match Storage.mkdir (Upload.faults env) d with
               | Some d' => d'
               | None => d
               end) (Terms.stored_name env file) (File.content file)
              (Upload.created env)
            = (match Storage.mkdir (Upload.faults env) d with
               | Some d' => d'
               | None => d
               end, false)) as ->; [|done].
    unfold Storage.writeFile.
    destruct Hrefused as [Hn|[Hw|[-> Hmk]]].
    + rewrite Hn. by destruct (match Storage.mkdir _ d with Some _ => _ | None => _ end).
    + rewrite Hw.
      destruct (match Storage.mkdir _ d with Some _ => _ | None => _ end); [|done].
      by destruct (negb _).
    + unfold Storage.mkdir. by rewrite Hmk.
  - intros written Hn Hw Hmk.
    assert (match Storage.mkdir (Upload.faults env) d with
            | Some d' => d'
            | None => d
            end = Some (Words.entries d)) as ->.
    { unfold Storage.mkdir. destruct d as [es|]; simpl.
      - by destruct (Storage.f_mkdir _).
      - by rewrite Hmk. }
    unfold Storage.writeFile. rewrite Hn, Hw. cbn [negb fst snd]. split; [done|].
    apply (put_entry_elem
             (Storage.mkEntry (Terms.stored_name env file)
                              (take written (File.content file))
                              (Upload.created env))).
Qed.

Lemma upload_write_refused_witness :
  (Upload.POST (Upload.mkEnv Storage.no_faults "7c9e6679" 1700000000000 1699999999990)
       (Some [Storage.mkEntry "11aa.png" [Byte.x61] 10])
       (Terms.upload_of (File.mk "a./b" 2 "text/plain" [Byte.x68; Byte.x69]))
     = ({| status := 500; body := ErrorBody "Upload failed." |},
        Some [Storage.mkEntry "11aa.png" [Byte.x61] 10])) ∧
  (fst (Upload.POST
          (Upload.mkEnv
             (Storage.mkFaults false false (λ _, Storage.WriteCut 1)
                               (λ _, false) (λ _, false))
             "7c9e6679" 1700000000000 1699999999990)
          (Some [Storage.mkEntry "11aa.png" [Byte.x61] 10])
          (Terms.upload_of (File.mk "a.txt" 2 "text/plain" [Byte.x68; Byte.x69])))
     = {| status := 500; body := ErrorBody "Upload failed." |} ∧
   ∃ e, e ∈ Words.entries
              (snd (Upload.POST
                      (Upload.mkEnv
                         (Storage.mkFaults false false (λ _, Storage.WriteCut 1)
                                           (λ _, false) (λ _, false))
                         "7c9e6679" 1700000000000 1699999999990)
                      (Some [Storage.mkEntry "11aa.png" [Byte.x61] 10])
                      (Terms.upload_of
                         (File.mk "a.txt" 2 "text/plain" [Byte.x68; Byte.x69])))) ∧
        Storage.e_name e = "7c9e6679.txt" ∧
        Storage.e_data e = [Byte.x68]).
Proof.
  split.
  - apply (proj1 (upload_write_refused
             (Upload.mkEnv Storage.no_faults "7c9e6679" 1700000000000 1699999999990)
             (Some [Storage.mkEntry "11aa.png" [Byte.x61] 10])
             (File.mk "a./b" 2 "text/plain" [Byte.x68; Byte.x69])
             (conj (Z.lt_le_incl 2 (10 * Words.mebibyte) eq_refl)
                   (list_elem_of_further _ _ _
                      (list_elem_of_further _ _ _
                         (list_elem_of_further _ _ _
                            (list_elem_of_further _ _ _
                               (list_elem_of_further _ _ _
                                  (list_elem_of_here _ _))))))))).
    left. reflexivity.
  - apply (proj2 (upload_write_refused
             (Upload.mkEnv
                (Storage.mkFaults false false (λ _, Storage.WriteCut 1)
                                  (λ _, false) (λ _, false))
                "7c9e6679" 1700000000000 1699999999990)
             (Some [Storage.mkEntry "11aa.png" [Byte.x61] 10])
             (File.mk "a.txt" 2 "text/plain" [Byte.x68; Byte.x69])
             (conj (Z.lt_le_incl 2 (10 * Words.mebibyte) eq_refl)
                   (list_elem_of_further _ _ _
                      (list_elem_of_further _ _ _
                         (list_elem_of_further _ _ _
                            (list_elem_of_further _ _ _
                               (list_elem_of_further _ _ _
                                  (list_elem_of_here _ _)))))))) 1%nat).
    + reflexivity.
    + reflexivity.
    + discriminate.
Defined.

(** *** Listing *)

Lemma lookup_entry_Some (name : string) (es : list Storage.Entry) (e : Storage.Entry) :
  Storage.lookup_entry name es = Some e → e ∈ es ∧ Storage.e_name e = name.
Proof.
  unfold Storage.lookup_entry. intros [Hin Heq]%find_some.
  split; [by apply list_elem_of_In | by apply String.eqb_eq].
Qed.

Lemma lookup_entry_listed (name : string) (es : list Storage.Entry) :
  name ∈ map Storage.e_name es → is_Some (Storage.lookup_entry name es).
Proof.
  unfold Storage.lookup_entry.
  induction es as [|x es IH]; simpl; [by intros ?%elem_of_nil|].
  destruct (String.eqb_spec (Storage.e_name x) name) as [|Hne]; [by eexists|].
  intros [?|?]%elem_of_cons; [done | by apply IH].
Qed.

Lemma describe_stat (fl : Storage.Faults) (d : Storage.Dir) (name : string) :
  Files.describe fl d name =
    match Storage.stat fl d name with
    | Some stats =>
        Some {| Files.id := fst (Files.decompose name);
                Files.fileName := name;
                Files.originalName := name;
                Files.size := Storage.st_size stats;
                Files.uploadedAt := Storage.st_birthtime stats;
                Files.url := "/uploads/" +:+ name;
                Files.type := Files.getFileType
                                (JS.or_empty (snd (Files.decompose name))) |}
    | None => None
    end.
Proof.
  unfold Files.describe. destruct (Storage.stat fl d name); [|done].
  by destruct (Files.decompose name).
Qed.

Lemma listed_names (fl : Storage.Faults) (es : list Storage.Entry) (names : list string) :
  (∀ n, n ∈ names → is_Some (Storage.lookup_entry n es)) →
  map Files.fileName (Files.non_null (map (Files.describe fl (Some es)) names))
    = filter (λ n, Storage.f_stat fl n = false) names.
Proof.
  unfold Files.non_null.
  induction names as [|n names IH]; intros Hall; [done|].
  cbn [map omap list_omap]. rewrite filter_cons.
  destruct (Hall n) as [e He]; [apply list_elem_of_here|].
  rewrite describe_stat. unfold Storage.stat. rewrite He.
  destruct (Storage.f_stat fl n) eqn:Hn.
  - rewrite decide_False by done. apply IH.
    intros m Hm. by apply Hall, list_elem_of_further.
  - rewrite decide_True by done. cbn [map Files.fileName]. f_equal. apply IH.
    intros m Hm. by apply Hall, list_elem_of_further.
Qed.

(** X5: GET /api/files lists every entry of a readable directory for which
    [stat] succeeds, once, and silently leaves out the others: the file
    names of the answer are, up to order, the names of the directory that
    [stat] accepts. *)
Theorem list_drops_unstatable (fl : Storage.Faults) (es : list Storage.Entry)
    (files : list Files.FileDescriptor) :
  Storage.f_readdir fl = false →
  Files.GET fl (Some es) = json_ok files →
  map Files.fileName files
    ≡ₚ filter (λ n, Storage.f_stat fl n = false) (map Storage.e_name es).
Proof.
  intros Hr Hget.
  rewrite (GET_complete fl (Some es) (map Storage.e_name es) files); [| |done].
  - rewrite listed_names; [done|]. intros n. apply lookup_entry_listed.
  - unfold Storage.readdir. by rewrite Hr.
Qed.

Lemma list_drops_unstatable_witness :
  map Files.fileName
      [ {| Files.id := "b"; Files.fileName := "b.png"; Files.originalName := "b.png";
           Files.size := 2; Files.uploadedAt := 20; Files.url := "/uploads/b.png";
           Files.type := "image/png" |} ]
    ≡ₚ filter (λ n, Storage.f_stat
                      (Storage.mkFaults false false (λ _, Storage.WriteOk) (String.eqb "a.txt") (λ _, false))
                      n = false)
              (map Storage.e_name
                   [ Storage.mkEntry "a.txt" [Byte.x61] 10;
                     Storage.mkEntry "b.png" [Byte.x62; Byte.x63] 20 ]).
Proof.
  apply (list_drops_unstatable
           (Storage.mkFaults false false (λ _, Storage.WriteOk) (String.eqb "a.txt") (λ _, false))
           [ Storage.mkEntry "a.txt" [Byte.x61] 10;
             Storage.mkEntry "b.png" [Byte.x62; Byte.x63] 20 ]).
  - reflexivity.
  - vm_compute. reflexivity.
Defined.

(** X6: every descriptor of a GET /api/files answer describes a file of the
    directory: its file name and original name are the entry's name, its
    size the length of the content, its time stamp the creation time, its
    URL [/uploads/] followed by the name, and its identifier what the
    decomposition of the name gives. *)
Theorem list_descriptor_of_entry (fl : Storage.Faults) (d : Storage.Dir)
    (files : list Files.FileDescriptor) (desc : Files.FileDescriptor) :
  Files.GET fl d = json_ok files → desc ∈ files →
  ∃ e, e ∈ Words.entries d ∧
    Files.fileName desc = Storage.e_name e ∧
    Files.originalName desc = Storage.e_name e ∧
    Files.size desc = Z.of_nat (length (Storage.e_data e)) ∧
    Files.uploadedAt desc = Storage.e_birthtime e ∧
    Files.url desc = "/uploads/" +:+ Storage.e_name e ∧
    Files.id desc = fst (Files.decompose (Storage.e_name e)).
Proof.
  rewrite GET_payload. intros [= <-].
  destruct (Storage.readdir fl d) as [names|]; [|by intros ?%elem_of_nil].
  rewrite sort_perm. unfold Files.non_null.
  intros (o & Ho & ->)%list_elem_of_omap.
  apply list_elem_of_fmap in Ho as (name & Hd & _).
  symmetry in Hd. rewrite describe_stat in Hd.
  unfold Storage.stat in Hd. destruct d as [es|]; [|done].
  destruct (Storage.f_stat fl name); [done|].
  destruct (Storage.lookup_entry name es) as [e|] eqn:He; [|done].
  apply lookup_entry_Some in He as [Hin <-].
  injection Hd as <-. by exists e.
Qed.

Lemma list_descriptor_of_entry_witness :
  ∃ e, e ∈ Words.entries (Some [ Storage.mkEntry "b.v1.png" [Byte.x62; Byte.x63] 20 ]) ∧
    "b.v1.png" = Storage.e_name e ∧
    "b.v1.png" = Storage.e_name e ∧
    2 = Z.of_nat (length (Storage.e_data e)) ∧
    20 = Storage.e_birthtime e ∧
    "/uploads/b.v1.png" = "/uploads/" +:+ Storage.e_name e ∧
    "b.v1" = fst (Files.decompose (Storage.e_name e)).
Proof.
  apply (list_descriptor_of_entry Storage.no_faults
           (Some [ Storage.mkEntry "b.v1.png" [Byte.x62; Byte.x63] 20 ])
           [ {| Files.id := "b.v1"; Files.fileName := "b.v1.png";
                Files.originalName := "b.v1.png";
                Files.size := 2; Files.uploadedAt := 20;
                Files.url := "/uploads/b.v1.png"; Files.type := "image/png" |} ]
           {| Files.id := "b.v1"; Files.fileName := "b.v1.png";
              Files.originalName := "b.v1.png";
              Files.size := 2; Files.uploadedAt := 20;
              Files.url := "/uploads/b.v1.png"; Files.type := "image/png" |}).
  - vm_compute. reflexivity.
  - apply list_elem_of_here.
Defined.

(** X7: the type the List Endpoint gives to a file is one of nine: the
    eight table values or application/octet-stream. It is never
    text/markdown, although the Upload Endpoint accepts that declared type:
    the listed type comes from the extension of the stored name, not from
    the type declared at upload. *)
Theorem getFileType_range (extension : string) :
  Files.getFileType extension ∈ Terms.listed_types ∧
  Files.getFileType extension ≠ "text/markdown" ∧
  "text/markdown" ∈ Words.allow_list.
Proof.
  assert (Files.getFileType extension ∈ Terms.listed_types) as Hin.
  { unfold Files.getFileType.
    generalize (JS.toLowerCase extension) as ext. intros ext.
    unfold JS.includes. cbn [existsb].
    repeat match goal with
           | |- context [String.eqb ext ?lit] =>
               destruct (String.eqb_spec ext lit) as [->|_];
               [apply list_elem_of_In; vm_compute; tauto|]
           end.
    apply list_elem_of_In. vm_compute. tauto. }
  split; [done|]. split.
  - intros Heq. rewrite Heq in Hin.
    apply list_elem_of_In in Hin. vm_compute in Hin.
    repeat destruct Hin as [Hin|Hin]; done.
  - apply list_elem_of_In. vm_compute. tauto.
Qed.

(** *** Upload, then list or delete *)

Lemma POST_stored (env : Upload.Env) (d : Storage.Dir) (file : File.t) :
  Terms.valid file →
  Words.can_store (Upload.faults env) d (Terms.stored_name env file) →
  snd (Upload.POST env d (Terms.upload_of file))
    = Some (Storage.put_entry
              (Storage.mkEntry (Terms.stored_name env file) (File.content file)
                               (Upload.created env))
              (Words.entries d)).
Proof.
  intros Hvalid Hstore. rewrite (POST_valid env d file Hvalid). cbn zeta.
  by rewrite (writeFile_stored env d _ (File.content file) Hstore).
Qed.

Lemma lookup_entry_put (e : Storage.Entry) (es : list Storage.Entry) :
  ∃ e', Storage.lookup_entry (Storage.e_name e) (Storage.put_entry e es) = Some e' ∧
        Storage.e_data e' = Storage.e_data e.
Proof.
  unfold Storage.lookup_entry.
  induction es as [|x es (e' & He' & Hd)]; simpl.
  - rewrite String.eqb_refl. by exists e.
  - destruct (String.eqb (Storage.e_name x) (Storage.e_name e)) eqn:Hx; simpl.
    + rewrite String.eqb_refl. by eexists.
    + rewrite Hx. by exists e'.
Qed.

Lemma put_entry_listed (e : Storage.Entry) (es : list Storage.Entry) :
  Storage.e_name e ∈ map Storage.e_name (Storage.put_entry e es).
Proof.
  destruct (put_entry_elem e es) as (e' & Hin & <- & _).
  apply list_elem_of_fmap. by exists e'.
Qed.

(** X8: upload, then list. After an accepted upload (the write not
    refused), a GET /api/files that can read the directory and [stat] the
    new file has a descriptor whose identifier is the one the upload
    answered, whose file name is the stored name, whose size is the length
    of the uploaded content, whose URL is the one the upload answered, and
    whose type is the table's value for the extension of the original
    name. *)
Theorem upload_then_list (env : Upload.Env) (d : Storage.Dir) (file : File.t)
    (fl : Storage.Faults) :
  Terms.valid file →
  Words.can_store (Upload.faults env) d (Terms.stored_name env file) →
  Storage.f_readdir fl = false →
  Storage.f_stat fl (Terms.stored_name env file) = false →
  ∃ files desc,
    Files.GET fl (snd (Upload.POST env d (Terms.upload_of file))) = json_ok files ∧
    desc ∈ files ∧
    Files.id desc = Upload.uuid env ∧
    Files.fileName desc = Terms.stored_name env file ∧
    Files.size desc = Z.of_nat (length (File.content file)) ∧
    Files.url desc = "/uploads/" +:+ Terms.stored_name env file ∧
    Files.type desc
      = Words.mime_of_extension (Words.final_segment "." (File.name file)).
Proof.
  intros Hvalid Hstore Hr Hs. rewrite (POST_stored env d file Hvalid Hstore).
  set (e := Storage.mkEntry (Terms.stored_name env file) (File.content file)
                            (Upload.created env)).
  set (es' := Storage.put_entry e (Words.entries d)).
  rewrite GET_payload. unfold Storage.readdir. rewrite Hr.
  destruct (lookup_entry_put e (Words.entries d)) as (e' & He' & Hdata).
  fold es' in He'. cbn [Storage.e_name e] in He'.
  pose proof (describe_stat fl (Some es') (Terms.stored_name env file)) as Hdesc.
  unfold Storage.stat in Hdesc. rewrite Hs, He' in Hdesc.
  pose proof (decompose_storedName (Upload.uuid env) (File.name file)) as Hdec.
  rewrite storedName_final_segment in Hdec.
  fold (Terms.stored_name env file) in Hdec. rewrite Hdec in Hdesc.
  cbn [fst snd] in Hdesc. rewrite or_empty_Some, getFileType_table in Hdesc.
  eexists. eexists. split; [reflexivity|]. split.
  - rewrite sort_perm. unfold Files.non_null. apply list_elem_of_omap.
    eexists. split; [|reflexivity]. rewrite <- Hdesc.
    apply list_elem_of_fmap. eexists. split; [reflexivity|].
    apply (put_entry_listed e).
  - cbn [Files.id Files.fileName Files.size Files.url Files.type Storage.st_size].
    by rewrite Hdata.
Qed.

Lemma upload_then_list_witness :
  ∃ files desc,
    Files.GET Storage.no_faults
      (snd (Upload.POST (Upload.mkEnv Storage.no_faults "7c9e6679" 1700000000000 1699999999990)
              (Some [Storage.mkEntry "11aa.png" [] 10])
              (Terms.upload_of
                 (File.mk "notes.v2.MD" 2 "text/markdown" [Byte.x68; Byte.x69]))))
      = json_ok files ∧
    desc ∈ files ∧
    Files.id desc = "7c9e6679" ∧
    Files.fileName desc = "7c9e6679.MD" ∧
    Files.size desc = 2 ∧
    Files.url desc = "/uploads/7c9e6679.MD" ∧
    Files.type desc = "text/plain".
Proof.
  apply (upload_then_list (Upload.mkEnv Storage.no_faults "7c9e6679" 1700000000000 1699999999990)
           (Some [Storage.mkEntry "11aa.png" [] 10])
           (File.mk "notes.v2.MD" 2 "text/markdown" [Byte.x68; Byte.x69])
           Storage.no_faults).
  - split; [vm_compute; discriminate | apply includes_elem_of; vm_compute; reflexivity].
  - split; [vm_compute; reflexivity | split; [reflexivity | discriminate]].
  - reflexivity.
  - reflexivity.
Defined.

Lemma stored_name_not_empty (env : Upload.Env) (file : File.t) :
  Terms.stored_name env file ≠ EmptyString.
Proof. unfold Terms.stored_name. by destruct (Upload.uuid env). Qed.

Lemma stored_name_starts_with (env : Upload.Env) (file : File.t) :
  Words.starts_with (Terms.stored_name env file) (Upload.uuid env).
Proof. by eexists. Qed.

(** X9: upload, then delete. When no file of the directory has a name that
    starts with the new identifier, a DELETE for the identifier the upload
    answered (the directory readable, the removal not refused) answers
    with the success message and leaves exactly the files that were there
    before the upload. *)
Theorem upload_then_delete (env : Upload.Env) (d : Storage.Dir) (file : File.t)
    (fl : Storage.Faults) :
  Terms.valid file →
  Words.can_store (Upload.faults env) d (Terms.stored_name env file) →
  (∀ x, x ∈ Words.entries d →
        ¬ Words.starts_with (Storage.e_name x) (Upload.uuid env)) →
  Storage.f_readdir fl = false →
  Storage.f_unlink fl (Terms.stored_name env file) = false →
  Delete.DELETE fl (snd (Upload.POST env d (Terms.upload_of file)))
                (Some (Upload.uuid env))
    = ({| status := 200;
          body := Payload {| Delete.success := true;
                             Delete.message := "File deleted successfully" |} |},
       Some (Words.entries d)).
Proof.
  intros Hvalid Hstore Hfresh Hr Hu.
  rewrite (POST_stored env d file Hvalid Hstore).
  set (e := Storage.mkEntry (Terms.stored_name env file) (File.content file)
                            (Upload.created env)).
  rewrite put_entry_fresh.
  - rewrite (DELETE_found (Upload.uuid env) (Words.entries d) [] e
               (stored_name_starts_with env file) Hfresh fl Hr
               (stored_name_not_empty env file)).
    cbn [Storage.e_name e]. rewrite Hu. by rewrite app_nil_r.
  - intros x Hx Heq. apply (Hfresh x Hx). rewrite Heq.
    apply stored_name_starts_with.
Qed.

Lemma upload_then_delete_witness :
  Delete.DELETE Storage.no_faults
      (snd (Upload.POST (Upload.mkEnv Storage.no_faults "7c9e6679" 1700000000000 1699999999990)
              (Some [Storage.mkEntry "11aa.png" [] 10])
              (Terms.upload_of
                 (File.mk "notes.txt" 2 "text/plain" [Byte.x68; Byte.x69]))))
      (Some "7c9e6679")
    = ({| status := 200;
          body := Payload {| Delete.success := true;
                             Delete.message := "File deleted successfully" |} |},
       Some [Storage.mkEntry "11aa.png" [] 10]).
Proof.
  apply (upload_then_delete (Upload.mkEnv Storage.no_faults "7c9e6679" 1700000000000 1699999999990)
           (Some [Storage.mkEntry "11aa.png" [] 10])
           (File.mk "notes.txt" 2 "text/plain" [Byte.x68; Byte.x69])
           Storage.no_faults).
  - split; [vm_compute; discriminate | apply includes_elem_of; vm_compute; reflexivity].
  - split; [vm_compute; reflexivity | split; [reflexivity | discriminate]].
  - intros x [<-|[]]%list_elem_of_In. intros Hx%startsWith_spec. discriminate Hx.
  - reflexivity.
  - reflexivity.
Defined.

(** *** Delete *)

Lemma find_first_split (p : string → bool) (es : list Storage.Entry) (f : string) :
  JS.find p (map Storage.e_name es) = Some f →
  ∃ pre e post, es = (pre ++ e :: post)%list ∧ Storage.e_name e = f ∧
    p f = true ∧ ∀ x, x ∈ pre → p (Storage.e_name x) = false.
Proof.
  unfold JS.find. induction es as [|x es IH]; simpl; [done|].
  destruct (p (Storage.e_name x)) eqn:Hx.
  - intros [= <-]. exists [], x, es. repeat split; [done|].
    by intros y ?%elem_of_nil.
  - intros (pre & e & post & -> & He & Hp & Hpre)%IH.
    exists (x :: pre), e, post. repeat split; [done..|].
    intros y [->|Hy]%elem_of_cons; [done | by apply Hpre].
Qed.

(** X10: what DELETE /api/upload/{id} can do to the directory. Either it
    answers 200 and has removed exactly one file, the first one whose name
    starts with the identifier, or it answers something else and the
    directory is as it was. No file whose name does not start with the
    identifier is ever removed. *)
Theorem delete_removes_first_match_only (fl : Storage.Faults) (d : Storage.Dir)
    (params : option string) :
  (status (fst (Delete.DELETE fl d params)) = 200 ∧
   ∃ fileId pre e post,
     params = Some fileId ∧
     d = Some (pre ++ e :: post)%list ∧
     snd (Delete.DELETE fl d params) = Some (pre ++ post)%list ∧
     Words.starts_with (Storage.e_name e) fileId ∧
     ∀ x, x ∈ pre → ¬ Words.starts_with (Storage.e_name x) fileId) ∨
  (status (fst (Delete.DELETE fl d params)) ≠ 200 ∧
   snd (Delete.DELETE fl d params) = d).
Proof.
  destruct params as [fileId|]; [|by right].
  destruct d as [es|]; [|by right].
  destruct (Storage.f_readdir fl) eqn:Hr.
  { right. unfold Delete.DELETE, Storage.readdir. by rewrite Hr. }
  destruct (JS.find (λ file, JS.startsWith file fileId) (map Storage.e_name es))
    as [f|] eqn:Hfind.
  2: { right. unfold Delete.DELETE, Storage.readdir. by rewrite Hr, Hfind. }
  apply find_first_split in Hfind as (pre & e & post & -> & <- & He & Hpre).
  apply startsWith_spec in He.
  assert (∀ x, x ∈ pre → ¬ Words.starts_with (Storage.e_name x) fileId) as Hpre'.
  { intros x Hx Hs%startsWith_spec. by rewrite (Hpre x Hx) in Hs. }
  destruct (decide (Storage.e_name e = EmptyString)) as [Hname|Hname].
  { right. unfold Delete.DELETE, Storage.readdir. rewrite Hr.
    rewrite (find_first_match fileId pre post e He Hpre'). by rewrite Hname. }
  rewrite (DELETE_found fileId pre post e He Hpre' fl Hr Hname).
  destruct (Storage.f_unlink fl (Storage.e_name e)); [by right|].
  left. split; [done|]. by exists fileId, pre, e, post.
Qed.

(* ===================================================================== *)
(** ** Further properties of the widgets and of the preview modal *)
(* ===================================================================== *)

(** *** Icons *)

(** X11: the icon of the types the List Endpoint gives. A listed file gets
    the folder icon exactly when its type is application/octet-stream, that
    is when its extension is not in the table; and every type the Upload
    Endpoint accepts has an icon other than the folder. *)
Theorem icon_of_listed_type (extension : string) :
  (Display.getFileIcon (Files.getFileType extension) = "📁" ↔
   Files.getFileType extension = "application/octet-stream") ∧
  (∀ t, t ∈ Words.allow_list → Display.getFileIcon t ≠ "📁").
Proof.
  split.
  - unfold Files.getFileType.
    generalize (JS.toLowerCase extension) as ext. intros ext.
    unfold JS.includes. cbn [existsb].
    repeat match goal with
           | |- context [String.eqb ext ?lit] =>
               destruct (String.eqb_spec ext lit) as [->|_];
               [split; intros H; vm_compute in H; discriminate H|]
           end.
    split; intros _; vm_compute; reflexivity.
  - intros t Ht. apply list_elem_of_In in Ht. vm_compute in Ht.
    repeat destruct Ht as [<-|Ht]; try done; vm_compute; discriminate.
Qed.

(** *** Deleting from the displayed list *)

Lemma without_elem_of (fileId : string) (prev : list Widget.UploadedFile)
    (f : Widget.UploadedFile) :
  f ∈ Actions.without fileId prev ↔ f ∈ prev ∧ Widget.id f ≠ fileId.
Proof.
  unfold Actions.without. rewrite !list_elem_of_In, filter_In.
  destruct (String.eqb_spec (Widget.id f) fileId) as [Heq|Hne]; simpl.
  - split; [by intros [_ ?] | by intros [_ ?]].
  - split; intros [Hin _]; by split.
Qed.

(** X12: [deleteFile] of the [fetch]-based widget. After a 2xx answer the
    list shows exactly the files it showed before whose identifier is not
    the deleted one; after any other answer, or when the request fails, the
    list is unchanged. The statuses and the scheduled callbacks are never
    touched. *)
Theorem deleteFile_on_confirmation (fileId : string) (o : Actions.Deleted)
    (s : Widget.State) :
  (o = Actions.DeleteAnswer true →
   ∀ f, f ∈ Widget.uploadedFiles (Actions.deleteFile fileId o s)
        ↔ f ∈ Widget.uploadedFiles s ∧ Widget.id f ≠ fileId) ∧
  (o ≠ Actions.DeleteAnswer true → Actions.deleteFile fileId o s = s) ∧
  Widget.uploadStatuses (Actions.deleteFile fileId o s) = Widget.uploadStatuses s ∧
  Widget.timers (Actions.deleteFile fileId o s) = Widget.timers s.
Proof.
  split; [|split].
  - intros -> f. apply without_elem_of.
  - by destruct o as [|[]].
  - by destruct o as [|[]].
Qed.

Lemma deleteFile_on_confirmation_witness :
  (∀ f, f ∈ Widget.uploadedFiles
              (Actions.deleteFile "11aa" (Actions.DeleteAnswer true)
                 (Widget.mkState
                    [Widget.mkUploadedFile "11aa" "11aa.txt" "a.txt" 1 "text/plain"
                                           "/uploads/11aa.txt" 10]
                    ∅ []))
        ↔ f ∈ [Widget.mkUploadedFile "11aa" "11aa.txt" "a.txt" 1 "text/plain"
                                     "/uploads/11aa.txt" 10]
          ∧ Widget.id f ≠ "11aa") ∧
  Actions.deleteFile "11aa" (Actions.DeleteAnswer false)
      (Widget.mkState
         [Widget.mkUploadedFile "11aa" "11aa.txt" "a.txt" 1 "text/plain"
                                "/uploads/11aa.txt" 10]
         ∅ [])
    = Widget.mkState
        [Widget.mkUploadedFile "11aa" "11aa.txt" "a.txt" 1 "text/plain"
                               "/uploads/11aa.txt" 10]
        ∅ [].
Proof.
  split.
  - apply (proj1 (deleteFile_on_confirmation "11aa" (Actions.DeleteAnswer true)
                    (Widget.mkState
                    [Widget.mkUploadedFile "11aa" "11aa.txt" "a.txt" 1 "text/plain"
                                           "/uploads/11aa.txt" 10]
                    ∅ []))).
    reflexivity.
  - apply (proj1 (proj2 (deleteFile_on_confirmation "11aa"
                           (Actions.DeleteAnswer false)
                           (Widget.mkState
                    [Widget.mkUploadedFile "11aa" "11aa.txt" "a.txt" 1 "text/plain"
                                           "/uploads/11aa.txt" 10]
                    ∅ [])))).
    discriminate.
Defined.

(** X13: [deleteFile] of the [XMLHttpRequest]-based widget does not look at
    the answer. Whatever the server answered, a 404 or a 500 as well, the
    files with the identifier leave the displayed list; only a request that
    fails on the network leaves the list as it was. *)
Theorem xhrDeleteFile_on_any_answer (fileId : string) (s : WidgetXhr.State) :
  (∀ (ok : bool) (f : WidgetXhr.UploadedFile),
     f ∈ WidgetXhr.files (Actions.xhrDeleteFile fileId (Actions.DeleteAnswer ok) s)
     ↔ f ∈ WidgetXhr.files s ∧ WidgetXhr.id f ≠ fileId) ∧
  Actions.xhrDeleteFile fileId Actions.DeleteNetworkError s = s.
Proof.
  split; [|done]. intros ok f. cbn [Actions.xhrDeleteFile WidgetXhr.files].
  rewrite !list_elem_of_In, filter_In.
  destruct (String.eqb_spec (WidgetXhr.id f) fileId) as [Heq|Hne]; simpl.
  - split; [by intros [_ ?] | by intros [_ ?]].
  - split; intros [Hin _]; by split.
Qed.

(** X14: [fetchFiles] always ends with the loading flag off and never
    touches the statuses or the scheduled callbacks. It replaces the
    displayed list only on a 2xx answer with a JSON body (by the body's
    [files], or by the empty list when the body has none); in every other
    case the list stays as it was. *)
Theorem fetchFiles_outcomes (o : Actions.Listed) (s : Widget.State) (isLoading : bool) :
  snd (Actions.fetchFiles o s isLoading) = false ∧
  Widget.uploadStatuses (fst (Actions.fetchFiles o s isLoading))
    = Widget.uploadStatuses s ∧
  Widget.timers (fst (Actions.fetchFiles o s isLoading)) = Widget.timers s ∧
  (∀ data, o = Actions.ListAnswer true (Some data) →
     Widget.uploadedFiles (fst (Actions.fetchFiles o s isLoading))
       = default [] (Actions.files data)) ∧
  ((∀ data, o ≠ Actions.ListAnswer true (Some data)) →
   fst (Actions.fetchFiles o s isLoading) = s).
Proof.
  destruct o as [|[] [data|]]; repeat split; try done.
  - by intros data' [= <-].
  - intros H. by destruct (H data).
Qed.

Lemma fetchFiles_outcomes_witness :
  Widget.uploadedFiles
    (fst (Actions.fetchFiles (Actions.ListAnswer true (Some (Actions.mkListJson None)))
            (Widget.mkState
               [Widget.mkUploadedFile "11aa" "11aa.txt" "a.txt" 1 "text/plain"
                                      "/uploads/11aa.txt" 10]
               ∅ [])
            true))
    = default [] (Actions.files (Actions.mkListJson None)) ∧
  fst (Actions.fetchFiles (Actions.ListAnswer false None)
         (Widget.mkState
            [Widget.mkUploadedFile "11aa" "11aa.txt" "a.txt" 1 "text/plain"
                                   "/uploads/11aa.txt" 10]
            ∅ [])
         true)
    = Widget.mkState
        [Widget.mkUploadedFile "11aa" "11aa.txt" "a.txt" 1 "text/plain"
                               "/uploads/11aa.txt" 10]
        ∅ [].
Proof.
  split.
  - apply (proj1 (proj2 (proj2 (proj2 (fetchFiles_outcomes
             (Actions.ListAnswer true (Some (Actions.mkListJson None)))
             (Widget.mkState
                    [Widget.mkUploadedFile "11aa" "11aa.txt" "a.txt" 1 "text/plain"
                                           "/uploads/11aa.txt" 10]
                    ∅ []) true))))).
    reflexivity.
  - apply (proj2 (proj2 (proj2 (proj2 (fetchFiles_outcomes
             (Actions.ListAnswer false None)
             (Widget.mkState
                    [Widget.mkUploadedFile "11aa" "11aa.txt" "a.txt" 1 "text/plain"
                                           "/uploads/11aa.txt" 10]
                    ∅ []) true))))).
    intros data. discriminate.
Defined.

(** *** A whole drop in the [fetch]-based widget *)

Lemma upload_one_statuses (now : Z) (file : File.t) (o : Widget.Fetched)
    (s : Widget.State) :
  ∃ st, Terms.settled st ∧
    Widget.uploadStatuses (Widget.upload_one now file o s)
      = <[File.name file := st]> (Widget.uploadStatuses s).
Proof.
  destruct o as [|[result|]|errorData]; eexists;
    (split; [|reflexivity]); (by left) || (by right).
Qed.

(** A callback that runs takes away at most the status of one file name
    and one pending callback. *)
Lemma fire_statuses (i : nat) (s : Widget.State) (name : string) :
  Widget.uploadStatuses (Widget.fire i s) !! name = None ∨
  Widget.uploadStatuses (Widget.fire i s) !! name = Widget.uploadStatuses s !! name.
Proof.
  unfold Widget.fire. destruct (Widget.timers s !! i) as [[delay other]|]; [|by right].
  cbn [Widget.uploadStatuses]. destruct (decide (other = name)) as [->|Hne].
  - left. apply lookup_delete_eq.
  - right. by apply lookup_delete_ne.
Qed.

Lemma fire_timers (i : nat) (s : Widget.State) (t : Z * string) :
  t ∈ Widget.timers (Widget.fire i s) → t ∈ Widget.timers s.
Proof.
  unfold Widget.fire. destruct (Widget.timers s !! i) as [[delay other]|]; [|done].
  cbn [Widget.timers]. intros Ht. eapply elem_of_sublist; [exact Ht|].
  apply sublist_delete.
Qed.

Lemma fires_statuses (fired : list nat) (s : Widget.State) (name : string) :
  Widget.uploadStatuses (foldl (λ s' i, Widget.fire i s') s fired) !! name = None ∨
  Widget.uploadStatuses (foldl (λ s' i, Widget.fire i s') s fired) !! name
    = Widget.uploadStatuses s !! name.
Proof.
  induction fired as [|i fired IH] using rev_ind; [by right|].
  rewrite foldl_app. cbn [foldl].
  destruct (fire_statuses i (foldl (λ s' i, Widget.fire i s') s fired) name)
    as [->| ->]; [by left | exact IH].
Qed.

Lemma fires_timers (fired : list nat) (s : Widget.State) (t : Z * string) :
  t ∈ Widget.timers (foldl (λ s' i, Widget.fire i s') s fired) →
  t ∈ Widget.timers s.
Proof.
  induction fired as [|i fired IH] using rev_ind; [done|].
  rewrite foldl_app. cbn [foldl]. intros Ht. by apply IH, (fire_timers i).
Qed.

Lemma scheduled_app (l1 l2 : list Widget.Turn) :
  Terms.scheduled (l1 ++ l2) = (Terms.scheduled l1 ++ Terms.scheduled l2)%list.
Proof. apply omap_app. Qed.

(** One turn: the callbacks that run, then the handling of the answer. *)
Lemma turn_statuses (s : Widget.State) (t : Widget.Turn) :
  ∃ st, Terms.settled st ∧
    Widget.uploadStatuses (Widget.turn s t)
      = <[File.name (Widget.t_file t) := st]>
          (Widget.uploadStatuses
             (foldl (λ s' i, Widget.fire i s') s (Widget.t_fired t))).
Proof. unfold Widget.turn. apply upload_one_statuses. Qed.

Lemma turn_timers (s : Widget.State) (t : Widget.Turn) :
  Widget.timers (Widget.turn s t)
    = (Widget.timers (foldl (λ s' i, Widget.fire i s') s (Widget.t_fired t))
       ++ Terms.scheduled [t])%list.
Proof.
  unfold Widget.turn, Terms.scheduled. cbn [omap list_omap].
  destruct (Widget.t_outcome t) as [|[result|]|errorData]; simpl;
    by rewrite ?app_nil_r.
Qed.

Lemma loop_timers (turns : list Widget.Turn) (s0 : Widget.State) (t : Z * string) :
  t ∈ Widget.timers (foldl Widget.turn s0 turns) →
  t ∈ Widget.timers s0 ∨ t ∈ Terms.scheduled turns.
Proof.
  induction turns as [|u turns IH] using rev_ind; [by left|].
  rewrite foldl_app, scheduled_app. cbn [foldl]. rewrite turn_timers.
  intros [Ht|Ht]%elem_of_app.
  - apply fires_timers, IH in Ht as [?|?]; [by left|].
    right. apply elem_of_app. by left.
  - right. apply elem_of_app. by right.
Qed.

Lemma loop_timers_undisturbed (turns : list Widget.Turn) (s0 : Widget.State) :
  Terms.undisturbed turns →
  Widget.timers (foldl Widget.turn s0 turns)
    = (Widget.timers s0 ++ Terms.scheduled turns)%list.
Proof.
  intros Hall. revert s0.
  induction Hall as [|u turns Hu _ IH]; intros s0; [by rewrite app_nil_r|].
  cbn [foldl]. rewrite IH, turn_timers, Hu. cbn [foldl].
  rewrite <- app_assoc. f_equal.
  change (u :: turns) with ([u] ++ turns)%list. by rewrite scheduled_app.
Qed.

Lemma loop_statuses_dropped (turns : list Widget.Turn) (s0 : Widget.State)
    (name : string) :
  name ∈ Terms.dropped turns →
  Widget.uploadStatuses (foldl Widget.turn s0 turns) !! name = None ∨
  ∃ st, Widget.uploadStatuses (foldl Widget.turn s0 turns) !! name = Some st ∧
        Terms.settled st.
Proof.
  induction turns as [|u turns IH] using rev_ind; [by intros ?%elem_of_nil|].
  unfold Terms.dropped. rewrite map_app, foldl_app. cbn [foldl map].
  intros Hin.
  destruct (turn_statuses (foldl Widget.turn s0 turns) u) as (st & Hst & ->).
  destruct (decide (File.name (Widget.t_file u) = name)) as [<-|Hne].
  - right. exists st. by rewrite lookup_insert_eq.
  - rewrite lookup_insert_ne by done.
    destruct (fires_statuses (Widget.t_fired u) (foldl Widget.turn s0 turns) name)
      as [->| ->]; [by left|].
    apply IH. apply elem_of_app in Hin as [Hin|Hin]; [done|].
    apply list_elem_of_singleton in Hin. congruence.
Qed.

Lemma loop_statuses_other (turns : list Widget.Turn) (s0 : Widget.State)
    (name : string) :
  name ∉ Terms.dropped turns →
  Widget.uploadStatuses (foldl Widget.turn s0 turns) !! name = None ∨
  Widget.uploadStatuses (foldl Widget.turn s0 turns) !! name
    = Widget.uploadStatuses s0 !! name.
Proof.
  induction turns as [|u turns IH] using rev_ind; [by right|].
  unfold Terms.dropped. rewrite map_app, foldl_app. cbn [foldl map].
  intros Hnot.
  destruct (turn_statuses (foldl Widget.turn s0 turns) u) as (st & _ & ->).
  rewrite lookup_insert_ne.
  - destruct (fires_statuses (Widget.t_fired u) (foldl Widget.turn s0 turns) name)
      as [->| ->]; [by left|].
    apply IH. intros Hin. apply Hnot, elem_of_app. by left.
  - intros Heq. apply Hnot, elem_of_app. right. rewrite Heq. apply list_elem_of_here.
Qed.

Lemma loop_statuses_undisturbed (turns : list Widget.Turn) (s0 : Widget.State)
    (name : string) :
  Terms.undisturbed turns →
  (name ∈ Terms.dropped turns →
   ∃ st, Widget.uploadStatuses (foldl Widget.turn s0 turns) !! name = Some st ∧
         Terms.settled st) ∧
  (name ∉ Terms.dropped turns →
   Widget.uploadStatuses (foldl Widget.turn s0 turns) !! name
     = Widget.uploadStatuses s0 !! name).
Proof.
  induction turns as [|u turns IH] using rev_ind; intros Hall.
  { split; [by intros ?%elem_of_nil | done]. }
  apply Forall_app in Hall as [Hall Hu]. apply Forall_inv in Hu.
  cbn beta in Hu.
  destruct (IH Hall) as [IHin IHnot].
  unfold Terms.dropped. rewrite map_app, foldl_app. cbn [foldl map].
  destruct (turn_statuses (foldl Widget.turn s0 turns) u) as (st & Hst & ->).
  rewrite Hu. cbn [foldl]. split.
  - intros Hin. destruct (decide (File.name (Widget.t_file u) = name)) as [<-|Hne].
    + exists st. by rewrite lookup_insert_eq.
    + rewrite lookup_insert_ne by done. apply IHin.
      apply elem_of_app in Hin as [Hin|Hin]; [done|].
      apply list_elem_of_singleton in Hin. congruence.
  - intros Hnot. rewrite lookup_insert_ne.
    + apply IHnot. intros Hin. apply Hnot, elem_of_app. by left.
    + intros Heq. apply Hnot, elem_of_app. right. rewrite Heq.
      apply list_elem_of_here.
Qed.

Lemma initialStatuses_lookup (acceptedFiles : list File.t) (name : string) :
  Widget.initialStatuses acceptedFiles !! name
    = if decide (name ∈ map File.name acceptedFiles)
      then Some (Widget.mkUploadStatus Widget.uploading 50 None)
      else None.
Proof.
  unfold Widget.initialStatuses.
  induction acceptedFiles as [|file fs IH] using rev_ind.
  - rewrite decide_False by apply not_elem_of_nil. apply lookup_empty.
  - rewrite foldl_app, map_app. cbn [foldl map].
    destruct (decide (File.name file = name)) as [<-|Hne].
    + rewrite lookup_insert_eq, decide_True; [done|].
      apply elem_of_app. right. apply list_elem_of_here.
    + rewrite lookup_insert_ne by done. rewrite IH.
      destruct (decide (name ∈ map File.name fs)) as [Hin|Hnot].
      * rewrite decide_True; [done|]. apply elem_of_app. by left.
      * rewrite decide_False; [done|].
        intros [?|Hin]%elem_of_app; [done|].
        apply list_elem_of_singleton in Hin. congruence.
Qed.

(** X15: the first lines of [onDrop]. Right after a drop every dropped file
    name is shown as uploading at 50%, whatever its status was, and the
    status of every other file name is what it was. *)
Theorem begin_drop_statuses (acceptedFiles : list File.t) (s : Widget.State)
    (name : string) :
  Widget.uploadStatuses (Widget.begin_drop acceptedFiles s) !! name
    = if decide (name ∈ map File.name acceptedFiles)
      then Some (Widget.mkUploadStatus Widget.uploading 50 None)
      else Widget.uploadStatuses s !! name.
Proof.
  cbn [Widget.begin_drop Widget.uploadStatuses].
  pose proof (initialStatuses_lookup acceptedFiles name) as Hl.
  destruct (decide (name ∈ map File.name acceptedFiles)).
  - by apply lookup_union_Some_l.
  - by apply lookup_union_r.
Qed.

Lemma begin_drop_other (turns : list Widget.Turn) (s : Widget.State) (name : string) :
  name ∉ Terms.dropped turns →
  Widget.uploadStatuses (Widget.begin_drop (map Widget.t_file turns) s) !! name
    = Widget.uploadStatuses s !! name.
Proof.
  intros Hnot. rewrite begin_drop_statuses. rewrite decide_False; [done|].
  intros Hin. apply Hnot. unfold Terms.dropped.
  by rewrite <- (map_map Widget.t_file File.name).
Qed.

(** X16: the displayed list and the scheduled callbacks after a whole
    drop, during which callbacks scheduled earlier may run while a turn
    awaits its request. The list starts with the descriptors of the uploads
    that completed, the last one first, followed by what was displayed
    before. Every callback still pending at the end was pending before the
    drop or was scheduled with the delay of 2000 ms by a completed upload
    of the drop; and when no callback runs during the drop, the pending
    ones are those pending before followed by one per completed upload, in
    the order of the drop. *)
Theorem drop_files_and_timers (turns : list Widget.Turn) (s : Widget.State) :
  Widget.uploadedFiles (Widget.onDrop turns s)
    = (rev (Words.completed turns) ++ Widget.uploadedFiles s)%list ∧
  (∀ t, t ∈ Widget.timers (Widget.onDrop turns s) →
        t ∈ Widget.timers s ∨ t ∈ Terms.scheduled turns) ∧
  (Terms.undisturbed turns →
   Widget.timers (Widget.onDrop turns s)
     = (Widget.timers s ++ Terms.scheduled turns)%list).
Proof.
  split; [apply onDrop_files|]. unfold Widget.onDrop. split.
  - intros t Ht. by apply loop_timers in Ht.
  - intros Hall. by rewrite loop_timers_undisturbed.
Qed.

Lemma drop_files_and_timers_witness :
  Widget.timers
    (Widget.onDrop
       [ Widget.mkTurn (File.mk "a.txt" 1 "text/plain" [Byte.x61]) []
           (Widget.Ok (Some (Widget.mkUploadJson "11aa" "11aa.txt" "a.txt"
                                                 "/uploads/11aa.txt" None)))
           1700000000000;
         Widget.mkTurn (File.mk "b.png" 2 "image/png" [Byte.x62; Byte.x63]) []
           Widget.NetworkError 1700000003000 ]
       (Widget.mkState [] ∅ []))
    = (Widget.timers (Widget.mkState [] ∅ []) ++
       Terms.scheduled
         [ Widget.mkTurn (File.mk "a.txt" 1 "text/plain" [Byte.x61]) []
             (Widget.Ok (Some (Widget.mkUploadJson "11aa" "11aa.txt" "a.txt"
                                                   "/uploads/11aa.txt" None)))
             1700000000000;
           Widget.mkTurn (File.mk "b.png" 2 "image/png" [Byte.x62; Byte.x63]) []
             Widget.NetworkError 1700000003000 ])%list.
Proof.
  apply (proj2 (proj2 (drop_files_and_timers
           [ Widget.mkTurn (File.mk "a.txt" 1 "text/plain" [Byte.x61]) []
               (Widget.Ok (Some (Widget.mkUploadJson "11aa" "11aa.txt" "a.txt"
                                                     "/uploads/11aa.txt" None)))
               1700000000000;
             Widget.mkTurn (File.mk "b.png" 2 "image/png" [Byte.x62; Byte.x63]) []
               Widget.NetworkError 1700000003000 ]
           (Widget.mkState [] ∅ [])))).
  repeat constructor.
Defined.

(** X17: when the loop of a drop is over, no dropped file is left shown as
    uploading. Callbacks scheduled earlier may have run while a turn
    awaited its request, so the status of a dropped file name is success
    or error or has been removed, and the status of any other file name is
    what it was before the drop or has been removed. When no callback runs
    during the drop, every dropped file name has the status success or
    error and every other file name has the status it had. *)
Theorem drop_statuses_settled (turns : list Widget.Turn) (s : Widget.State)
    (name : string) :
  (name ∈ Terms.dropped turns →
   Widget.uploadStatuses (Widget.onDrop turns s) !! name = None ∨
   ∃ st, Widget.uploadStatuses (Widget.onDrop turns s) !! name = Some st ∧
         Terms.settled st) ∧
  (name ∉ Terms.dropped turns →
   Widget.uploadStatuses (Widget.onDrop turns s) !! name = None ∨
   Widget.uploadStatuses (Widget.onDrop turns s) !! name
     = Widget.uploadStatuses s !! name) ∧
  (Terms.undisturbed turns →
   (name ∈ Terms.dropped turns →
    ∃ st, Widget.uploadStatuses (Widget.onDrop turns s) !! name = Some st ∧
          Terms.settled st) ∧
   (name ∉ Terms.dropped turns →
    Widget.uploadStatuses (Widget.onDrop turns s) !! name
      = Widget.uploadStatuses s !! name)).
Proof.
  unfold Widget.onDrop. split; [|split].
  - apply loop_statuses_dropped.
  - intros Hnot. rewrite <- (begin_drop_other turns s name Hnot).
    by apply loop_statuses_other.
  - intros Hall.
    destruct (loop_statuses_undisturbed turns
                (Widget.begin_drop (map Widget.t_file turns) s) name Hall)
      as [Hin Hout].
    split; [exact Hin|]. intros Hnot. rewrite (Hout Hnot).
    by apply begin_drop_other.
Qed.

Lemma drop_statuses_settled_witness :
  Widget.uploadStatuses
    (Widget.onDrop
       [ Widget.mkTurn (File.mk "a.txt" 1 "text/plain" [Byte.x61]) []
           (Widget.Ok (Some (Widget.mkUploadJson "11aa" "11aa.txt" "a.txt"
                                                 "/uploads/11aa.txt" None)))
           1700000000000;
         Widget.mkTurn (File.mk "b.png" 2 "image/png" [Byte.x62; Byte.x63]) [0%nat]
           Widget.NetworkError 1700000003000 ]
       (Widget.mkState [] ∅ []))
    !! "a.txt" = None ∨
  ∃ st,
    Widget.uploadStatuses
      (Widget.onDrop
         [ Widget.mkTurn (File.mk "a.txt" 1 "text/plain" [Byte.x61]) []
             (Widget.Ok (Some (Widget.mkUploadJson "11aa" "11aa.txt" "a.txt"
                                                   "/uploads/11aa.txt" None)))
             1700000000000;
           Widget.mkTurn (File.mk "b.png" 2 "image/png" [Byte.x62; Byte.x63]) [0%nat]
             Widget.NetworkError 1700000003000 ]
         (Widget.mkState [] ∅ []))
      !! "a.txt" = Some st ∧ Terms.settled st.
Proof.
  apply (proj1 (drop_statuses_settled
           [ Widget.mkTurn (File.mk "a.txt" 1 "text/plain" [Byte.x61]) []
               (Widget.Ok (Some (Widget.mkUploadJson "11aa" "11aa.txt" "a.txt"
                                                     "/uploads/11aa.txt" None)))
               1700000000000;
             Widget.mkTurn (File.mk "b.png" 2 "image/png" [Byte.x62; Byte.x63]) [0%nat]
               Widget.NetworkError 1700000003000 ]
           (Widget.mkState [] ∅ []) "a.txt")).
  apply list_elem_of_here.
Defined.

(** *** A request of the [XMLHttpRequest]-based widget *)




(** *** The preview modal *)

Lemma text_type_excludes (t : string) :
  JS.startsWith t "text/" = true →
  JS.startsWith t "image/" = false ∧ String.eqb t "application/pdf" = false.
Proof.
  intros [rest ->]%startsWith_spec. split; reflexivity.
Qed.

(** X19: the modal fetches a file's text exactly when it shows the text
    view. For a file and a value of [isOpen], the content area is one of
    the three text views (loading, error, content) if and only if the
    guard of the loading effect holds. *)
Theorem preview_text_view_iff_loaded (f : Widget.UploadedFile) (isOpen : bool)
    (st : Preview.TextState) :
  (∃ c, Preview.render (Some f) isOpen st = Some c ∧ Terms.is_text_view c)
  ↔ Preview.loads_text (Some f) isOpen = true.
Proof.
  cbn [Preview.render Preview.loads_text]. destruct isOpen.
  2: { rewrite andb_false_r. split; [by intros (c & [=] & _) | done]. }
  rewrite andb_true_r. unfold Preview.renderPreviewContent.
  destruct (JS.startsWith (Widget.type f) "text/") eqn:Ht.
  - destruct (text_type_excludes _ Ht) as [-> ->]. split; [done|]. intros _.
    eexists. split; [reflexivity|].
    by destruct (Preview.isLoading st), (JS.truthy (Preview.error st)).
  - destruct (JS.startsWith (Widget.type f) "image/"),
             (String.eqb (Widget.type f) "application/pdf");
      (split; [|done]); by intros (c & [= <-] & Hc).
Qed.

(** X20: one load of a text file, from any earlier state of the modal.
    While the request is pending the modal shows the loading view; when it
    resolves, the text, whatever error an earlier load had left; when it
    rejects, the error 'Failed to load file content'. *)
Theorem preview_load_cycle (f : Widget.UploadedFile) (st : Preview.TextState)
    (content : string) :
  Preview.loads_text (Some f) true = true →
  Preview.render (Some f) true (Preview.begin_load st) = Some Preview.TextLoading ∧
  Preview.render (Some f) true (Preview.end_load (Some content) (Preview.begin_load st))
    = Some (Preview.TextShown content) ∧
  Preview.render (Some f) true (Preview.end_load None (Preview.begin_load st))
    = Some (Preview.TextError "Failed to load file content").
Proof.
  cbn [Preview.loads_text]. rewrite andb_true_r. intros Ht.
  cbn [Preview.render]. unfold Preview.renderPreviewContent.
  destruct (text_type_excludes _ Ht) as [-> ->]. rewrite Ht. done.
Qed.

Lemma preview_load_cycle_witness :
  Preview.render
    (Some (Widget.mkUploadedFile "11aa" "11aa.md" "a.md" 1 "text/markdown"
                                 "/uploads/11aa.md" 10))
    true
    (Preview.begin_load (Preview.mkTextState "old" false "Failed to load file content"))
    = Some Preview.TextLoading ∧
  Preview.render
    (Some (Widget.mkUploadedFile "11aa" "11aa.md" "a.md" 1 "text/markdown"
                                 "/uploads/11aa.md" 10))
    true
    (Preview.end_load (Some "# hi")
       (Preview.begin_load (Preview.mkTextState "old" false "Failed to load file content")))
    = Some (Preview.TextShown "# hi") ∧
  Preview.render
    (Some (Widget.mkUploadedFile "11aa" "11aa.md" "a.md" 1 "text/markdown"
                                 "/uploads/11aa.md" 10))
    true
    (Preview.end_load None
       (Preview.begin_load (Preview.mkTextState "old" false "Failed to load file content")))
    = Some (Preview.TextError "Failed to load file content").
Proof.
  apply (preview_load_cycle
           (Widget.mkUploadedFile "11aa" "11aa.md" "a.md" 1 "text/markdown"
                                  "/uploads/11aa.md" 10)
           (Preview.mkTextState "old" false "Failed to load file content")
           "# hi").
  reflexivity.
Defined.

(** X21: the key handler of the modal. It calls nothing while the modal is
    closed, and it never calls a navigation callback that was not given:
    [onClose] is called only for Escape, [onPrevious] only for ArrowLeft
    when it was given, [onNext] only for ArrowRight when it was given; and
    while the modal is open Escape always closes it. *)
Theorem handleKeyDown_sound (isOpen hasPrevious hasNext : bool) (key : string) :
  (∀ cb, Preview.handleKeyDown isOpen hasPrevious hasNext key = Some cb →
     isOpen = true ∧
     match cb with
     | Preview.onClose => key = "Escape"
     | Preview.onPrevious => key = "ArrowLeft" ∧ hasPrevious = true
     | Preview.onNext => key = "ArrowRight" ∧ hasNext = true
     end) ∧
  (isOpen = true → key = "Escape" →
   Preview.handleKeyDown isOpen hasPrevious hasNext key = Some Preview.onClose).
Proof.
  unfold Preview.handleKeyDown. split.
  - intros cb. destruct isOpen; [|done]. cbn [negb].
    destruct (String.eqb_spec key "Escape") as [->|_]; [by intros [= <-]|].
    destruct (String.eqb_spec key "ArrowLeft") as [->|_], hasPrevious;
      cbn [andb]; try (by intros [= <-]);
      destruct (String.eqb_spec key "ArrowRight") as [Hk|_], hasNext;
      cbn [andb]; try done; by intros [= <-].
  - by intros -> ->.
Qed.

Lemma handleKeyDown_sound_witness :
  Preview.handleKeyDown true false true "Escape" = Some Preview.onClose ∧
  (true = true ∧ "ArrowRight" = "ArrowRight" ∧ true = true).
Proof.
  split.
  - apply (proj2 (handleKeyDown_sound true false true "Escape")); reflexivity.
  - apply (proj1 (handleKeyDown_sound true false true "ArrowRight") Preview.onNext).
    reflexivity.
Defined.

(** X22: the scroll lock of the modal. From its first render on, through
    any sequence of renders and unmounts, the body's overflow is 'hidden'
    when the modal is mounted and was last rendered open, and 'unset'
    otherwise; in particular it is 'unset' after every unmount, whatever
    the overflow of the page was before the modal was mounted. *)
Theorem scroll_lock_invariant (overflow0 : string) (isOpen0 : bool)
    (evs : list Preview.Lifecycle) :
  let c := Preview.scroll_run evs
             (Preview.scroll_step (None, overflow0) (Preview.Render isOpen0)) in
  snd c = match fst c with
          | Some true => "hidden"
          | _ => "unset"
          end.
Proof.
  cbn zeta. unfold Preview.scroll_run.
  assert (∀ c : option bool * string,
            snd c = match fst c with Some true => "hidden" | _ => "unset" end →
            snd (foldl Preview.scroll_step c evs)
              = match fst (foldl Preview.scroll_step c evs) with
                | Some true => "hidden"
                | _ => "unset"
                end) as Hrun.
  { induction evs as [|ev evs IH]; intros c Hc; [done|].
    cbn [foldl]. apply IH.
    destruct c as [[[]|] ov], ev as [[]|]; cbn in *; done. }
  apply Hrun. by destruct isOpen0.
Qed.
